(** * A products REST API: validation pipeline and resource handlers

    Shallow embedding of [src/router.ts] and [src/handlers/product.ts].
    The routes are Express middleware stacks: express-validator chains,
    the input-error middleware, and one resource handler that talks to a
    Sequelize model.  The libraries the code calls (validator.js,
    express-validator, Express, Sequelize) are embedded as far as the
    routes use them. *)

From Stdlib Require Import ZArith QArith String Ascii List Bool Lia.
From stdpp Require Import gmap strings list sorting pretty.
Import ListNotations.

Set Warnings "-register-all".

Local Open Scope string_scope.
Local Open Scope list_scope.
Local Open Scope Z_scope.

(** ** JavaScript values and the coercions the routes rely on *)
Module JS.

(** A parsed JSON document, plus [undefined] for a property that is absent.
    Numbers are the integer literals (prices such as [300] or [0]); the
    number-to-string conversion below is the decimal numeral, which is what
    JavaScript prints for integers of magnitude below 10^21. *)
Inductive Value : Type :=
| JUndefined
| JNull
| JBool (b : bool)
| JNum (n : Z)
| JStr (s : string)
| JArr (items : list Value)
| JObj (fields : list (string * Value)).

(** The result of [ToNumber]. *)
Inductive Number : Type :=
| NaN
| Inf (negative : bool)
| Fin (q : Q).

(** Own property lookup, [obj[key]]: the first entry of the key. *)
Fixpoint assoc {A : Type} (key : string) (l : list (string * A)) : option A :=
  match l with
  | [] => None
  | (k, v) :: rest => if String.eqb k key then Some v else assoc key rest
  end.

(** [_.get(obj, key)] for a plain key: [undefined] unless [obj] is an object
    that has the property. *)
Definition get (key : string) (obj : Value) : Value :=
  match obj with
  | JObj fields => match assoc key fields with Some v => v | None => JUndefined end
  | _ => JUndefined
  end.

(** [String(value)]; an array joins its elements with commas, printing
    [null] and [undefined] elements as the empty string. *)
Fixpoint ToString (value : Value) : string :=
  match value with
  | JUndefined => "undefined"
  | JNull => "null"
  | JBool true => "true"
  | JBool false => "false"
  | JNum n => pretty n
  | JStr s => s
  | JArr items =>
      (fix join (l : list Value) : string :=
         match l with
         | [] => ""
         | x :: rest =>
             let element :=
               match x with
               | JUndefined | JNull => ""
               | _ => ToString x
               end in
             match rest with
             | [] => element
             | _ => element +:+ "," +:+ join rest
             end
         end) items
  | JObj _ => "[object Object]"
  end.

(** [ToBoolean]. *)
Definition truthy (value : Value) : bool :=
  match value with
  | JUndefined | JNull => false
  | JBool b => b
  | JNum n => negb (n =? 0)
  | JStr s => negb (String.eqb s "")
  | JArr _ | JObj _ => true
  end.

(** The [!] operator. *)
Definition logical_not (value : Value) : Value := JBool (negb (truthy value)).

(** [ToPrimitive]: arrays and plain objects go through [toString]. *)
Definition ToPrimitive (value : Value) : Value :=
  match value with
  | JArr _ | JObj _ => JStr (ToString value)
  | _ => value
  end.

(** *** [StringToNumber] *)

Definition code (c : ascii) : Z := Z.of_nat (nat_of_ascii c).

(** White space that is stripped around a numeric string (the ASCII part of
    the set: tab, line feed, vertical tab, form feed, carriage return,
    space). *)
Definition is_space (c : ascii) : bool :=
  let n := code c in ((9 <=? n) && (n <=? 13)) || (n =? 32).

Definition is_digit (c : ascii) : bool :=
  let n := code c in (48 <=? n) && (n <=? 57).

Fixpoint skip_spaces (s : list ascii) : list ascii :=
  match s with
  | c :: rest => if is_space c then skip_spaces rest else s
  | [] => []
  end.

Definition trim (s : list ascii) : list ascii :=
  rev (skip_spaces (rev (skip_spaces s))).

(** The longest prefix of decimal digits, and what follows it. *)
Fixpoint span_digits (s : list ascii) : list ascii * list ascii :=
  match s with
  | c :: rest =>
      if is_digit c
      then let '(ds, tl) := span_digits rest in (c :: ds, tl)
      else ([], s)
  | [] => ([], [])
  end.

Definition digit_value (c : ascii) : option Z :=
  let n := code c in
  if (48 <=? n) && (n <=? 57) then Some (n - 48)
  else if (97 <=? n) && (n <=? 102) then Some (n - 87)
  else if (65 <=? n) && (n <=? 70) then Some (n - 55)
  else None.

(** The value of a digit string in a radix; [None] on a foreign character. *)
Fixpoint digits_in (radix : Z) (s : list ascii) (acc : Z) : option Z :=
  match s with
  | [] => Some acc
  | c :: rest =>
      match digit_value c with
      | Some d => if d <? radix then digits_in radix rest (radix * acc + d) else None
      | None => None
      end
  end.

Definition integer_literal (radix : Z) (s : list ascii) : Number :=
  match s with
  | [] => NaN
  | _ => match digits_in radix s 0 with
         | Some n => Fin (inject_Z n)
         | None => NaN
         end
  end.

(** An optional exponent part, [e] or [E], a sign, digits; the whole rest
    of the literal has to be consumed. *)
Definition exponent (s : list ascii) : option Z :=
  match s with
  | [] => Some 0
  | c :: rest =>
      if (code c =? 101) || (code c =? 69) then
        let '(negative, ds) :=
          match rest with
          | "-"%char :: r => (true, r)
          | "+"%char :: r => (false, r)
          | _ => (false, rest)
          end in
        match ds with
        | [] => None
        | _ => match digits_in 10 ds 0 with
               | Some e => Some (if negative then - e else e)
               | None => None
               end
        end
      else None
  end.

(** [StrUnsignedDecimalLiteral]: [Infinity], or digits with an optional
    fraction and exponent; at least one digit before or after the point. *)
Definition unsigned_decimal (s : list ascii) : Number :=
  if String.eqb (string_of_list_ascii s) "Infinity" then Inf false else
  let '(ip, r1) := span_digits s in
  let '(fp, r2) :=
    match r1 with
    | "."%char :: r => span_digits r
    | _ => ([], r1)
    end in
  match ip ++ fp with
  | [] => NaN
  | ds =>
      match digits_in 10 ds 0, exponent r2 with
      | Some m, Some e =>
          Fin (inject_Z m * Qpower (10 # 1) (e - Z.of_nat (length fp)))
      | _, _ => NaN
      end
  end.

Definition negate (n : Number) : Number :=
  match n with
  | NaN => NaN
  | Inf negative => Inf (negb negative)
  | Fin q => Fin (- q)
  end.

Definition StringToNumber (str : string) : Number :=
  match trim (list_ascii_of_string str) with
  | [] => Fin 0
  | "0"%char :: "x"%char :: r | "0"%char :: "X"%char :: r => integer_literal 16 r
  | "0"%char :: "o"%char :: r | "0"%char :: "O"%char :: r => integer_literal 8 r
  | "0"%char :: "b"%char :: r | "0"%char :: "B"%char :: r => integer_literal 2 r
  | "-"%char :: r => negate (unsigned_decimal r)
  | "+"%char :: r => unsigned_decimal r
  | s => unsigned_decimal s
  end.

Definition ToNumber (value : Value) : Number :=
  match ToPrimitive value with
  | JUndefined => NaN
  | JNull => Fin 0
  | JBool true => Fin 1
  | JBool false => Fin 0
  | JNum n => Fin (inject_Z n)
  | JStr s => StringToNumber s
  | JArr _ | JObj _ => NaN
  end.

(** [value > n] against a number literal: numeric comparison after
    [ToNumber]; any comparison with [NaN] is false. *)
Definition gt (value : Value) (n : Z) : bool :=
  match ToNumber value with
  | NaN => false
  | Inf negative => negb negative
  | Fin q => negb (Qle_bool q (inject_Z n))
  end.

End JS.
Export JS.

(** ** validator.js: the string predicates, with their default options *)
Module validator.

Definition strip_sign (s : list ascii) : list ascii :=
  match s with
  | "+"%char :: r | "-"%char :: r => r
  | _ => s
  end.

Definition digits (s : list ascii) : bool :=
  match s with
  | [] => false
  | _ => forallb is_digit s
  end.

(** [/^[-+]?[0-9]+$/] (leading zeroes are allowed by default). *)
Definition isInt (str : string) : bool :=
  digits (strip_sign (list_ascii_of_string str)).

(** [/^[+-]?([0-9]*[.])?[0-9]+$/]. *)
Definition isNumeric (str : string) : bool :=
  let '(_, rest) := span_digits (strip_sign (list_ascii_of_string str)) in
  match rest with
  | [] => digits (strip_sign (list_ascii_of_string str))
  | "."%char :: fraction => digits fraction
  | _ => false
  end.

(** [str.length === 0] (white space is not ignored by default). *)
Definition isEmpty (str : string) : bool := String.eqb str "".

(** Strict booleans: [['true', 'false', '1', '0'].includes(str)]. *)
Definition isBoolean (str : string) : bool :=
  existsb (String.eqb str) ["true"; "false"; "1"; "0"].

End validator.

(** ** Express: the request and the response object *)
Module Express.

(** What a middleware sees of the request: the route parameters and the
    body as [express.json()] parsed it. *)
Record Request : Type := {
  params : list (string * string);
  body : Value
}.

(** [req.params.id]: [undefined] when the route binds no such parameter. *)
Definition param_value (name : string) (req : Request) : Value :=
  match assoc name (params req) with
  | Some s => JStr s
  | None => JUndefined
  end.

(** The response object: the status code (200 until [status] changes it) and
    the JSON document sent, if any. *)
Record Response : Type := {
  statusCode : Z;
  sent : option Value
}.

Definition fresh : Response := {| statusCode := 200; sent := None |}.

End Express.
Export Express.

(** ** express-validator: validation chains *)
Module ExpressValidator.

Inductive Location : Type := in_body | in_params.

(** A standard validator is a validator.js predicate on the value turned
    into a string; a custom validator receives the value itself. *)
Inductive Validator : Type :=
| Standard (validator : string -> bool)
| Custom (validator : Value -> bool).

(** One entry of a chain: the validator, whether [.not()] negates it, and
    the message [.withMessage] attached to it. *)
Record ContextItem : Type := {
  validator : Validator;
  negated : bool;
  message : string
}.

Record ValidationChain : Type := {
  location : Location;
  field : string;
  stack : list ContextItem
}.

(** A field error as [validationResult(req).array()] reports it. *)
Record ValidationError : Type := {
  value : Value;
  msg : string;
  path : string;
  error_location : Location
}.

Definition chain (l : Location) (f : string) : ValidationChain :=
  {| location := l; field := f; stack := [] |}.

Definition body (f : string) : ValidationChain := chain in_body f.
Definition param (f : string) : ValidationChain := chain in_params f.

Definition add (v : Validator) (neg : bool) (c : ValidationChain) : ValidationChain :=
  {| location := location c; field := field c;
     stack := stack c ++ [{| validator := v; negated := neg; message := "Invalid value" |}] |}.

Definition isInt : ValidationChain -> ValidationChain := add (Standard validator.isInt) false.
Definition isNumeric : ValidationChain -> ValidationChain := add (Standard validator.isNumeric) false.
Definition isBoolean : ValidationChain -> ValidationChain := add (Standard validator.isBoolean) false.
(** [notEmpty()] is [not().isEmpty()]. *)
Definition notEmpty : ValidationChain -> ValidationChain := add (Standard validator.isEmpty) true.
Definition custom (f : Value -> bool) : ValidationChain -> ValidationChain := add (Custom f) false.

(** [.withMessage(m)] sets the message of the validator added last. *)
Fixpoint set_last_message (m : string) (items : list ContextItem) : list ContextItem :=
  match items with
  | [] => []
  | [item] => [{| validator := validator item; negated := negated item; message := m |}]
  | item :: rest => item :: set_last_message m rest
  end.

Definition withMessage (m : string) (c : ValidationChain) : ValidationChain :=
  {| location := location c; field := field c; stack := set_last_message m (stack c) |}.

(** The string a standard validator is run on. *)
Definition toString_shallow (v : Value) : string :=
  match v with
  | JUndefined | JNull => ""
  | _ => ToString v
  end.

Definition toString (v : Value) : string :=
  match v with
  | JArr (first :: _) => toString_shallow first
  | _ => toString_shallow v
  end.

(** The value a chain selects from the request. *)
Definition select (c : ValidationChain) (req : Request) : Value :=
  match location c with
  | in_body => get (field c) (Express.body req)
  | in_params => param_value (field c) req
  end.

Definition error (c : ValidationChain) (item : ContextItem) (v : Value) : ValidationError :=
  {| value := v; msg := message item; path := field c; error_location := location c |}.

(** A standard validator runs on every element of an array value and on the
    value itself otherwise; a custom validator runs once, on the value. *)
Definition fails (item : ContextItem) (v : Value) : bool :=
  match validator item with
  | Standard f => Bool.eqb (f (toString v)) (negated item)
  | Custom f => if negated item then f v else negb (f v)
  end.

Definition subjects (item : ContextItem) (v : Value) : list Value :=
  match validator item, v with
  | Standard _, JArr items => items
  | _, _ => [v]
  end.

Definition run_item (c : ValidationChain) (v : Value) (item : ContextItem)
  : list ValidationError :=
  error c item <$> filter (λ x, fails item x = true) (subjects item v).

(** Every validator of the chain runs (nothing bails out), in order. *)
Definition run (c : ValidationChain) (req : Request) : list ValidationError :=
  stack c ≫= run_item c (select c req).

Definition location_name (l : Location) : string :=
  match l with in_body => "body" | in_params => "params" end.

(** The JSON form of an error; a property whose value is [undefined] is
    left out by [JSON.stringify]. *)
Definition error_json (e : ValidationError) : Value :=
  JObj ([("type", JStr "field")]
        ++ match value e with JUndefined => [] | v => [("value", v)] end
        ++ [("msg", JStr (msg e)); ("path", JStr (path e));
            ("location", JStr (location_name (error_location e)))]).

End ExpressValidator.

(** ** Sequelize: the model interface the handlers call *)
Module Sequelize.

Definition Error : Type := string.

(** How a promise settles. *)
Inductive Settled (A : Type) : Type :=
| Resolved (a : A)
| Rejected (e : Error).
Arguments Resolved {A} a.
Arguments Rejected {A} e.

(** A model instance: its attribute values. *)
Record Instance : Type := { dataValues : list (string * Value) }.

(** Reading an attribute, [instance.dataValues.key]. *)
Definition getDataValue (key : string) (i : Instance) : Value :=
  match assoc key (dataValues i) with Some v => v | None => JUndefined end.

Fixpoint assign (key : string) (v : Value) (l : list (string * Value))
  : list (string * Value) :=
  match l with
  | [] => [(key, v)]
  | (k, old) :: rest =>
      if String.eqb k key then (k, v) :: rest else (k, old) :: assign key v rest
  end.

(** The attribute setter, [instance.key = v]. *)
Definition setDataValue (key : string) (v : Value) (i : Instance) : Instance :=
  {| dataValues := assign key v (dataValues i) |}.

(** What [res.json] makes of an instance. *)
Definition toJSON (i : Instance) : Value := JObj (dataValues i).

Inductive Direction : Type := ASC | DESC.

(** The options of [findAll]: [order] and [attributes.exclude]. *)
Record FindOptions : Type := {
  order : list (string * Direction);
  exclude : list string
}.

(** The model, over the state [S] of the storage behind it.  Every method
    returns a promise: it acts on the storage and settles.  [update] and
    [save] also change the instance they are called on. *)
Class Model (S : Type) : Type := {
  findAll : FindOptions -> S -> Settled (list Instance) * S;
  findByPk : Value -> S -> Settled (option Instance) * S;
  create : Value -> S -> Settled Instance * S;
  update : Value -> Instance -> S -> Settled unit * Instance * S;
  save : Instance -> S -> Settled unit * Instance * S;
  destroy : Instance -> S -> Settled unit * S
}.

End Sequelize.
Export Sequelize.

(** ** The run of one request: async functions and middleware *)
Module Runtime.
Import ExpressValidator.

(** Everything one request can read or change: the storage, the response
    object, the validation errors the chains left on the request, the
    console, and the rejections of promises that nobody awaited. *)
Record World (S : Type) : Type := {
  db : S;
  res : Response;
  contexts : list ValidationError;
  console : list Error;
  unhandled : list Error
}.
Arguments db {S} w.
Arguments res {S} w.
Arguments contexts {S} w.
Arguments console {S} w.
Arguments unhandled {S} w.

Section async.
Context {S : Type}.

Definition with_db (s : S) (w : World S) : World S :=
  {| db := s; res := res w; contexts := contexts w;
     console := console w; unhandled := unhandled w |}.

Definition with_res (r : Response) (w : World S) : World S :=
  {| db := db w; res := r; contexts := contexts w;
     console := console w; unhandled := unhandled w |}.

Definition with_contexts (c : list ValidationError) (w : World S) : World S :=
  {| db := db w; res := res w; contexts := c;
     console := console w; unhandled := unhandled w |}.

Definition with_console (c : list Error) (w : World S) : World S :=
  {| db := db w; res := res w; contexts := contexts w;
     console := c; unhandled := unhandled w |}.

Definition with_unhandled (u : list Error) (w : World S) : World S :=
  {| db := db w; res := res w; contexts := contexts w;
     console := console w; unhandled := u |}.

(** The world in which a request arrives. *)
Definition start (s : S) : World S :=
  {| db := s; res := fresh; contexts := []; console := []; unhandled := [] |}.

(** The body of an async function: it runs in the world and either
    completes with a value or throws. *)
Definition Async (A : Type) : Type := World S -> Settled A * World S.

Definition ret {A : Type} (a : A) : Async A := λ w, (Resolved a, w).

Definition bind {A B : Type} (m : Async A) (k : A -> Async B) : Async B :=
  λ w, match m w with
       | (Resolved a, w') => k a w'
       | (Rejected e, w') => (Rejected e, w')
       end.

(** [try { body } catch (error) { handler }]. *)
Definition try_catch {A : Type} (body : Async A) (handler : Error -> Async A) : Async A :=
  λ w, match body w with
       | (Resolved a, w') => (Resolved a, w')
       | (Rejected e, w') => handler e w'
       end.

(** [await promise]: the call acts on the storage; a rejection is thrown. *)
Definition await {A : Type} (call : S -> Settled A * S) : Async A :=
  λ w, let '(r, s) := call (db w) in (r, with_db s w).

(** [await] of an instance method: the instance as the call left it. *)
Definition await_on (call : S -> Settled unit * Instance * S) : Async Instance :=
  λ w, let '(r, i, s) := call (db w) in
       (match r with Resolved _ => Resolved i | Rejected e => Rejected e end,
        with_db s w).

(** An instance method called without [await]: the call acts all the same,
    but the function goes on whatever the promise does; a rejection reaches
    no [catch] and ends as an unhandled rejection. *)
Definition floating (call : S -> Settled unit * Instance * S) : Async Instance :=
  λ w, let '(r, i, s) := call (db w) in
       (Resolved i,
        match r with
        | Resolved _ => with_db s w
        | Rejected e => with_unhandled (unhandled w ++ [e]) (with_db s w)
        end).

(** [res.status(code)] and [res.json(document)]. *)
Definition status (code : Z) : Async unit :=
  λ w, (Resolved tt, with_res {| statusCode := code; sent := sent (res w) |} w).

Definition json (document : Value) : Async unit :=
  λ w, (Resolved tt,
        with_res {| statusCode := statusCode (res w); sent := Some document |} w).

(** [console.log(error)] and [console.error(error)]. *)
Definition console_log (e : Error) : Async unit :=
  λ w, (Resolved tt, with_console (console w ++ [e]) w).

(** *** Middleware *)

(** A middleware either calls [next()] or ends the request. *)
Inductive Flow : Type := Next | End.

Definition Middleware : Type := Request -> World S -> Flow * World S.

(** Express runs the stack of a route in order until a middleware does not
    call [next()]. *)
Fixpoint dispatch (stack : list Middleware) (req : Request) (w : World S) : World S :=
  match stack with
  | [] => w
  | m :: rest =>
      match m req w with
      | (Next, w') => dispatch rest req w'
      | (End, w') => w'
      end
  end.

(** A validation chain used as middleware: it runs, leaves its errors on
    the request and calls [next()]. *)
Definition validate (c : ValidationChain) : Middleware :=
  λ req w, (Next, with_contexts (contexts w ++ run c req) w).

(** [validationResult(req).array()]. *)
Definition validationResult (w : World S) : list ValidationError := contexts w.

(** A resource handler as the last middleware; a handler that rejects
    leaves an unhandled rejection. *)
Definition handle (h : Request -> Async unit) : Middleware :=
  λ req w, match h req w with
           | (Resolved _, w') => (End, w')
           | (Rejected e, w') => (End, with_unhandled (unhandled w' ++ [e]) w')
           end.

End async.

Declare Scope async_scope.
Delimit Scope async_scope with async.
Notation "x <- m ;; k" := (bind m (λ x, k))
  (at level 20, m at level 99, k at level 200, only parsing) : async_scope.
Notation "m ;; k" := (bind m (λ _, k))
  (at level 100, k at level 200, only parsing, right associativity) : async_scope.

End Runtime.
Export Runtime.

(** ** [src/handlers/product.ts] *)
Module handlers.
Section product.
Context {S : Type} `{Product : Model S}.
Local Open Scope async_scope.

(** GET: all products. *)
Definition getProducts (req : Request) : Async (S := S) unit :=
  try_catch
    (products <- await (findAll {| order := [("id", DESC)];
                                   exclude := ["createdAt"; "updatedAt"] |}) ;;
     json (JObj [("data", JArr (toJSON <$> products))]))
    (λ error,
       console_log error ;;
       status 500 ;; json (JObj [("error", JStr "Database error")])).

(** GET: one product by its id. *)
Definition getProductsById (req : Request) : Async (S := S) unit :=
  try_catch
    (let id := param_value "id" req in
     product <- await (findByPk id) ;;
     match product with
     | None => status 404 ;; json (JObj [("error", JStr "Producto no encontrado")])
     | Some product => json (JObj [("data", toJSON product)])
     end)
    (λ error,
       console_log error ;;
       status 500 ;; json (JObj [("error", JStr "Database error")])).

(** POST: create a product from the request body. *)
Definition createProduct (req : Request) : Async (S := S) unit :=
  try_catch
    (product <- await (create (Express.body req)) ;;
     status 201 ;; json (JObj [("data", toJSON product)]))
    (λ error,
       console_log error ;;
       status 500 ;; json (JObj [("error", JStr "Database error")])).

(** PUT: replace the data of a product.  [product.update(req.body)] is
    called without [await]; [product.save()] is awaited. *)
Definition updateProduct (req : Request) : Async (S := S) unit :=
  let id := param_value "id" req in
  try_catch
    (product <- await (findByPk id) ;;
     match product with
     | None => status 404 ;; json (JObj [("error", JStr "Producto no encontrado")])
     | Some product =>
         product <- floating (update (Express.body req) product) ;;
         product <- await_on (save product) ;;
         json (JObj [("data", toJSON product)])
     end)
    (λ error,
       console_log error ;;
       status 500 ;; json (JObj [("error", JStr "Database error")])).

(** PATCH: flip the availability of a product. *)
Definition updateAvailability (req : Request) : Async (S := S) unit :=
  let id := param_value "id" req in
  try_catch
    (product <- await (findByPk id) ;;
     match product with
     | None => status 404 ;; json (JObj [("error", JStr "Producto no encontrado")])
     | Some product =>
         let product :=
           setDataValue "availability"
             (logical_not (getDataValue "availability" product)) product in
         product <- await_on (save product) ;;
         json (JObj [("data", toJSON product)])
     end)
    (λ error,
       console_log error ;;
       status 500 ;; json (JObj [("error", JStr "Database error")])).

(** DELETE: remove a product. *)
Definition deleteProduct (req : Request) : Async (S := S) unit :=
  let id := param_value "id" req in
  try_catch
    (product <- await (findByPk id) ;;
     match product with
     | None => status 404 ;; json (JObj [("error", JStr "Producto no encontrado")])
     | Some product =>
         await (destroy product) ;;
         json (JObj [("data", JStr "Producto eliminado")])
     end)
    (λ error,
       console_log error ;;
       status 500 ;; json (JObj [("error", JStr "Database error")])).

End product.
End handlers.
Export handlers.

(** ** The input-error middleware, [./middleware] *)
Module middleware.
Section middleware.
Context {S : Type}.

(** Modelled from the spec: [handleInputErrors], which [src/router.ts]
    imports from [./middleware]; that file is not among the sources.  The
    spec: if the violation sequence is non-empty, respond with HTTP 400 and
    a JSON body [{ errors: [...] }] and do not invoke the resource handler;
    if it is empty, pass control to the resource handler with no observable
    side effect. *)
Definition handleInputErrors : Middleware (S := S) :=
  λ req w,
    let errors := validationResult w in
    match errors with
    | [] => (Next, w)
    | _ =>
        (End,
         with_res {| statusCode := 400;
                     sent := Some (JObj [("errors",
                               JArr (ExpressValidator.error_json <$> errors))]) |} w)
    end.

End middleware.
End middleware.
Export middleware.

(** ** [src/router.ts] *)
Module Router.
Import ExpressValidator.

Notation "c '|>' f" := (f c) (at level 45, left associativity, only parsing).

Inductive Method : Type := GET | POST | PUT | PATCH | DELETE.

(** The two path patterns of the router, ['/'] and ['/:id']. *)
Inductive Pattern : Type := root | with_id.

Section routes.
Context {S : Type} `{Product : Model S}.

Record Route : Type := {
  method : Method;
  pattern : Pattern;
  stack : list (Middleware (S := S))
}.

Definition router : list Route := [
  {| method := GET; pattern := root;
     stack := [ handle getProducts ] |};
  {| method := GET; pattern := with_id;
     stack := [
       validate (param "id" |> isInt |> withMessage "ID no válido");
       handleInputErrors;
       handle getProductsById ] |};
  {| method := POST; pattern := root;
     stack := [
       validate (body "name"
                 |> notEmpty |> withMessage "El nombre del producto no puede estar vacío");
       validate (body "price"
                 |> isNumeric |> withMessage "Valor no válido"
                 |> notEmpty |> withMessage "El precio del producto no puede estar vacío"
                 |> custom (λ value, JS.gt value 0) |> withMessage "El precio no es válido");
       handleInputErrors;
       handle createProduct ] |};
  {| method := PUT; pattern := with_id;
     stack := [
       validate (param "id" |> isInt |> withMessage "ID no válido");
       validate (body "name"
                 |> notEmpty |> withMessage "El nombre del producto no puede estar vacío");
       validate (body "price"
                 |> isNumeric |> withMessage "Valor no válido"
                 |> notEmpty |> withMessage "El precio del producto no puede estar vacío"
                 |> custom (λ value, JS.gt value 0) |> withMessage "El precio no es válido");
       validate (body "availability"
                 |> isBoolean |> withMessage "Valor para la disponibilidad no válida ");
       handleInputErrors;
       handle updateProduct ] |};
  {| method := PATCH; pattern := with_id;
     stack := [
       validate (param "id" |> isInt |> withMessage "ID no válido");
       handleInputErrors;
       handle updateAvailability ] |};
  {| method := DELETE; pattern := with_id;
     stack := [
       validate (param "id" |> isInt |> withMessage "ID no válido");
       handleInputErrors;
       handle deleteProduct ] |}
].

Definition method_eqb (a b : Method) : bool :=
  match a, b with
  | GET, GET | POST, POST | PUT, PUT | PATCH, PATCH | DELETE, DELETE => true
  | _, _ => false
  end.

(** The parameters a pattern binds on a path, given by its segments below
    the mount point; [None] when the path does not match. *)
Definition bind_params (p : Pattern) (path : list string) : option (list (string * string)) :=
  match p, path with
  | root, [] => Some []
  | with_id, [id] => if String.eqb id "" then None else Some [("id", id)]
  | _, _ => None
  end.

(** The first route of the table that matches gets the request. *)
Fixpoint find_route (routes : list Route) (m : Method) (path : list string)
  : option (Route * list (string * string)) :=
  match routes with
  | [] => None
  | r :: rest =>
      match (if method_eqb (method r) m then bind_params (pattern r) path else None) with
      | Some ps => Some (r, ps)
      | None => find_route rest m path
      end
  end.

(** One request through the router; a request no route takes leaves the
    router with the default 404 and no JSON document. *)
Definition serve (m : Method) (path : list string) (payload : Value) (w : World S)
  : World S :=
  match find_route router m path with
  | Some (r, ps) => dispatch (stack r) {| params := ps; Express.body := payload |} w
  | None => with_res {| statusCode := 404; sent := None |} w
  end.

End routes.
End Router.
Export Router.

(** ** The products table in memory *)
Module Memory.

(** Modelled from the spec: the [Product] model of [../models/Product.model]
    and the table it maps to; the file is not among the sources.  A product
    has an integer [id], a surrogate primary key assigned by the persistence
    layer on creation; [name]; [price]; [availability], true by default at
    creation; and the bookkeeping timestamps [createdAt] and [updatedAt].
    The table keeps, by [id], the other attributes of each row as they were
    handed to it, the next identifier, and the clock that stamps rows. *)
Record Table : Type := {
  rows : gmap Z (list (string * Value));
  autoIncrement : Z;
  now : Z
}.

Definition with_rows (r : gmap Z (list (string * Value))) (t : Table) : Table :=
  {| rows := r; autoIncrement := autoIncrement t; now := now t |}.

(** The instance built from a row. *)
Definition build (row : Z * list (string * Value)) : Instance :=
  {| dataValues := ("id", JNum row.1) :: row.2 |}.

(** The key a primary-key argument denotes: a number, or the numeral in a
    string (a route parameter). *)
Definition primaryKey (pk : Value) : option Z :=
  match pk with
  | JNum n => Some n
  | JStr s =>
      if validator.isInt s then
        match list_ascii_of_string s with
        | "-"%char :: r => Z.opp <$> digits_in 10 r 0
        | cs => digits_in 10 (validator.strip_sign cs) 0
        end
      else None
  | _ => None
  end.

(** The value of a column in a row. *)
Definition column (c : string) (row : Z * list (string * Value)) : Value :=
  if String.eqb c "id" then JNum row.1
  else match assoc c row.2 with Some v => v | None => JNull end.

Definition compare_values (a b : Value) : comparison :=
  match a, b with
  | JNum x, JNum y => x ?= y
  | JStr x, JStr y => String.compare x y
  | JBool x, JBool y => Bool.compare x y
  | _, _ => Eq
  end.

(** [ORDER BY]: the first column that tells two rows apart decides. *)
Fixpoint compare_rows (ord : list (string * Direction))
    (r1 r2 : Z * list (string * Value)) : comparison :=
  match ord with
  | [] => Eq
  | (c, d) :: rest =>
      match (match d with
             | ASC => compare_values (column c r1) (column c r2)
             | DESC => compare_values (column c r2) (column c r1)
             end) with
      | Eq => compare_rows rest r1 r2
      | o => o
      end
  end.

Definition precedes (ord : list (string * Direction))
    (r1 r2 : Z * list (string * Value)) : Prop :=
  compare_rows ord r1 r2 ≠ Gt.

#[global] Instance precedes_dec ord r1 r2 : Decision (precedes ord r1 r2).
Proof. unfold precedes. apply _. Defined.

(** [attributes: { exclude }]: the instance without the excluded attributes. *)
Definition without (excluded : list string) (i : Instance) : Instance :=
  {| dataValues :=
       filter (λ kv, existsb (String.eqb kv.1) excluded = false) (dataValues i) |}.

Definition mem_findAll (o : FindOptions) (t : Table)
  : Settled (list Instance) * Table :=
  (Resolved (without (exclude o) <$>
               (build <$> merge_sort (precedes (order o)) (map_to_list (rows t)))),
   t).

Definition mem_findByPk (pk : Value) (t : Table) : Settled (option Instance) * Table :=
  match primaryKey pk with
  | Some k => (Resolved ((λ attrs, build (k, attrs)) <$> rows t !! k), t)
  | None => (Resolved None, t)
  end.

(** A column stores [NULL] for a value that was not given. *)
Definition nullable (v : Value) : Value :=
  match v with JUndefined => JNull | _ => v end.

(** [create(values)]: a new row from the model's attributes among [values];
    the identifier comes from the table. *)
Definition mem_create (values : Value) (t : Table) : Settled Instance * Table :=
  let k := autoIncrement t in
  let attrs :=
    [("name", nullable (get "name" values));
     ("price", nullable (get "price" values));
     ("availability",
       match get "availability" values with JUndefined => JBool true | v => v end);
     ("createdAt", JNum (now t));
     ("updatedAt", JNum (now t))] in
  match rows t !! k with
  | Some _ => (Rejected "Validation error", t)
  | None =>
      (Resolved (build (k, attrs)),
       {| rows := <[k := attrs]> (rows t); autoIncrement := k + 1; now := now t |})
  end.

(** Deep equality of values, as the change tracking of an instance uses it. *)
Fixpoint Value_eqb (a b : Value) : bool :=
  match a, b with
  | JUndefined, JUndefined | JNull, JNull => true
  | JBool x, JBool y => Bool.eqb x y
  | JNum x, JNum y => x =? y
  | JStr x, JStr y => String.eqb x y
  | JArr xs, JArr ys =>
      (fix all (xs ys : list Value) : bool :=
         match xs, ys with
         | [], [] => true
         | x :: xs', y :: ys' => Value_eqb x y && all xs' ys'
         | _, _ => false
         end) xs ys
  | JObj xs, JObj ys =>
      (fix all (xs ys : list (string * Value)) : bool :=
         match xs, ys with
         | [], [] => true
         | (k, x) :: xs', (l, y) :: ys' => String.eqb k l && Value_eqb x y && all xs' ys'
         | _, _ => false
         end) xs ys
  | _, _ => false
  end.

(** The attributes an instance of an existing row may write. *)
Definition writable : list string := ["name"; "price"; "availability"].

(** The writable attributes that the instance holds with a value other
    than the row's. *)
Definition differs (i : Instance) (row : Z * list (string * Value)) (c : string) : bool :=
  match assoc c (dataValues i) with
  | Some v => negb (Value_eqb v (column c row))
  | None => false
  end.

Definition changed (i : Instance) (row : Z * list (string * Value)) : list string :=
  filter (λ c, differs i row c = true) writable.

(** [instance.save()]: the changed attributes are written to the row of the
    instance's [id] and [updatedAt] is stamped, on the instance too; nothing
    happens when nothing changed. *)
Definition mem_save (i : Instance) (t : Table) : Settled unit * Instance * Table :=
  match primaryKey (getDataValue "id" i) with
  | Some k =>
      match rows t !! k with
      | Some attrs =>
          match changed i (k, attrs) with
          | [] => (Resolved (), i, t)
          | cs =>
              let i' := setDataValue "updatedAt" (JNum (now t)) i in
              let attrs' :=
                foldr (λ c acc, assign c (nullable (getDataValue c i')) acc)
                      attrs ("updatedAt" :: cs) in
              (Resolved (), i', with_rows (<[k := attrs']> (rows t)) t)
          end
      | None => (Resolved (), i, t)
      end
  | None => (Resolved (), i, t)
  end.

(** The synchronous part of [instance.update(values)]: the writable
    attributes given in [values] are set on the instance. *)
Definition assign_values (values : Value) (i : Instance) : Instance :=
  foldr (λ c acc,
           match get c values with
           | JUndefined => acc
           | v => setDataValue c v acc
           end) i writable.

(** [instance.update(values)]: set, then save. *)
Definition mem_update (values : Value) (i : Instance) (t : Table)
  : Settled unit * Instance * Table :=
  mem_save (assign_values values i) t.

(** [instance.destroy()]: the row of the instance's [id] is removed. *)
Definition mem_destroy (i : Instance) (t : Table) : Settled unit * Table :=
  match primaryKey (getDataValue "id" i) with
  | Some k => (Resolved (), with_rows (delete k (rows t)) t)
  | None => (Resolved (), t)
  end.

#[global] Instance memory : Model Table := {
  findAll := mem_findAll;
  findByPk := mem_findByPk;
  create := mem_create;
  update := mem_update;
  save := mem_save;
  destroy := mem_destroy
}.

End Memory.
Export Memory.

(** ** A storage that fails on demand *)
Module Faulty.

Inductive Call : Type :=
| call_findAll | call_findByPk | call_create | call_update | call_save | call_destroy.

#[global] Instance Call_eq_dec : EqDecision Call.
Proof. solve_decision. Defined.

(** The table, and the calls whose next query is to fail (as the tests
    arrange with [mockRejectedValueOnce]). *)
Record Storage : Type := {
  failing : list Call;
  table : Table
}.

Fixpoint remove_first (c : Call) (l : list Call) : list Call :=
  match l with
  | [] => []
  | x :: rest => if decide (x = c) then rest else x :: remove_first c rest
  end.

Definition fails (c : Call) (s : Storage) : bool := bool_decide (c ∈ failing s).

Definition failed (c : Call) (s : Storage) : Storage :=
  {| failing := remove_first c (failing s); table := table s |}.

(** A call that only queries the storage. *)
Definition guarded {A : Type} (c : Call) (run : Table -> Settled A * Table)
    (s : Storage) : Settled A * Storage :=
  if fails c s then (Rejected "Database error", failed c s)
  else let '(r, t) := run (table s) in (r, {| failing := failing s; table := t |}).

(** A call on an instance: when its query fails, [synchronous] is what the
    call had done to the instance before. *)
Definition guarded_on (c : Call) (synchronous : Instance -> Instance)
    (run : Instance -> Table -> Settled unit * Instance * Table)
    (i : Instance) (s : Storage) : Settled unit * Instance * Storage :=
  if fails c s then (Rejected "Database error", synchronous i, failed c s)
  else let '(r, i', t) := run i (table s) in
       (r, i', {| failing := failing s; table := t |}).

#[global] Instance faulty : Model Storage := {
  findAll o := guarded call_findAll (mem_findAll o);
  findByPk pk := guarded call_findByPk (mem_findByPk pk);
  create values := guarded call_create (mem_create values);
  update values := guarded_on call_update (assign_values values) (mem_update values);
  save := guarded_on call_save id mem_save;
  destroy i := guarded call_destroy (mem_destroy i)
}.

End Faulty.

(** ** [src/server.ts] *)
Module Server.

(** The connection [db] of [./config/db], as far as [connectDB] uses it:
    two calls that return promises. *)
Class Connection (S : Type) : Type := {
  authenticate : S -> Settled unit * S;
  sync : S -> Settled unit * S
}.

(** What the [origin] function of the CORS options hands to its callback:
    [callback(err, allow)]. *)
Inductive Callback : Type := callback (err : option Error) (allow : bool).

Section server.
Context {S : Type}.

(** A call whose promise is dropped: the call acts, the function goes on,
    and a rejection reaches no [catch]. *)
Definition unawaited {A : Type} (call : S -> Settled A * S) : Async (S := S) unit :=
  λ w, let '(r, s) := call (db w) in
       (Resolved (),
        match r with
        | Resolved _ => with_db s w
        | Rejected e => with_unhandled (unhandled w ++ [e]) (with_db s w)
        end).

(** [connectDB]: [db.authenticate()] is awaited, [db.sync()] is not; the
    [catch] block logs a fixed message, styled by [colors.red.bold], which is
    taken as the parameter [red_bold]. *)
Definition connectDB `{Connection S} (red_bold : string -> string)
  : Async (S := S) unit :=
  try_catch
    (bind (await authenticate) (λ _, unawaited sync))
    (λ error, console_log (red_bold "Hubo un error al conectarse a la BBDD")).

(** [corsOptions.origin]: the [Origin] header of the request ([undefined]
    when there is none) against [process.env.FRONTEND_URL] ([undefined] when
    it is not set), compared with [===]. *)
Definition corsOptions_origin (FRONTEND_URL origin : option string) : Callback :=
  if decide (origin = FRONTEND_URL) then callback None true
  else callback (Some "Error de Cors") false.

(** The [cors] middleware on a request that is not a preflight: an error of
    the [origin] function goes to [next(err)], which Express answers with
    500 and no JSON document; otherwise the request goes on. *)
Definition cors (origin_option : option string -> Callback) (origin : option string)
    (next : World S -> World S) (w : World S) : World S :=
  match origin_option origin with
  | callback (Some e) _ => with_res {| statusCode := 500; sent := None |} w
  | callback None _ => next w
  end.

(** A request below [/api/products] through the server: the CORS check,
    then the router.  The body is taken as [express.json()] parsed it. *)
Definition server `{Model S} (FRONTEND_URL origin : option string)
    (m : Method) (path : list string) (payload : Value) (w : World S) : World S :=
  cors (corsOptions_origin FRONTEND_URL) origin (serve m path payload) w.

End server.
End Server.
Export Server.

(** ** What the properties are stated with *)
Module Contract.
Import ExpressValidator.

Section contract.
Context {S : Type}.

(** The stack of a validated route: the chains, the input-error middleware,
    the resource handler. *)
Definition validated (chains : list ValidationChain) (h : Request -> Async (S := S) unit)
  : list (Middleware (S := S)) :=
  (validate <$> chains) ++ [handleInputErrors; handle h].

(** The violation sequence of a request: the errors of every chain, in the
    order of the chains. *)
Definition violations (chains : list ValidationChain) (req : Request)
  : list ValidationError :=
  chains ≫= (λ c, run c req).

(** The response that rejects a request with its violations. *)
Definition rejection (errors : list ValidationError) : Response :=
  {| statusCode := 400;
     sent := Some (JObj [("errors", JArr (error_json <$> errors))]) |}.

(** The world after the [catch] block of a handler ran on [w]: the error is
    logged and the response is 500 with the error document. *)
Definition database_error (e : Error) (s : S) (w : World S) : World S :=
  {| db := s;
     res := {| statusCode := 500; sent := Some (JObj [("error", JStr "Database error")]) |};
     contexts := contexts w;
     console := console w ++ [e];
     unhandled := unhandled w |}.

(** What the create handler makes of the outcome of [create]. *)
Definition created (outcome : Settled Instance * S) : World S :=
  match outcome with
  | (Resolved product, s) =>
      {| db := s;
         res := {| statusCode := 201; sent := Some (JObj [("data", toJSON product)]) |};
         contexts := []; console := []; unhandled := [] |}
  | (Rejected e, s) =>
      {| db := s;
         res := {| statusCode := 500;
                   sent := Some (JObj [("error", JStr "Database error")]) |};
         contexts := []; console := [e]; unhandled := [] |}
  end.

End contract.

(** The attributes of a row after its flag was flipped and the row stamped. *)
Definition toggled (t : Table) (k : Z) (attrs : list (string * Value))
  : list (string * Value) :=
  assign "updatedAt" (JNum (now t))
    (assign "availability" (logical_not (column "availability" (k, attrs))) attrs).

(** The entries of the [errors] array of a response, and their messages. *)
Definition errors_of (r : Response) : option (list Value) :=
  match sent r with
  | Some (JObj [("errors", JArr entries)]) => Some entries
  | _ => None
  end.

Definition messages_of (r : Response) : option (list Value) :=
  fmap (M := list) (get "msg") <$> errors_of r.

(** The [data] and [error] properties of the document of a response. *)
Definition data_of (r : Response) : Value :=
  match sent r with Some doc => get "data" doc | None => JUndefined end.

Definition error_of (r : Response) : Value :=
  match sent r with Some doc => get "error" doc | None => JUndefined end.

(** The rules of the create and of the full-update route, as [router]
    declares them. *)
Definition createRules : list ValidationChain := [
  body "name" |> notEmpty |> withMessage "El nombre del producto no puede estar vacío";
  body "price"
    |> isNumeric |> withMessage "Valor no válido"
    |> notEmpty |> withMessage "El precio del producto no puede estar vacío"
    |> custom (λ value, JS.gt value 0) |> withMessage "El precio no es válido"
].

Definition idRules : list ValidationChain := [
  param "id" |> isInt |> withMessage "ID no válido"
].

Definition updateRules : list ValidationChain :=
  idRules ++ createRules ++ [
    body "availability"
      |> isBoolean |> withMessage "Valor para la disponibilidad no válida "
  ].

End Contract.
Export Contract.

(** ** A small catalogue, for the concrete cases *)
Module Sample.

Definition row (name : string) (price : Z) (availability : bool) (stamp : Z)
  : list (string * Value) :=
  [("name", JStr name); ("price", JNum price); ("availability", JBool availability);
   ("createdAt", JNum stamp); ("updatedAt", JNum stamp)].

Definition catalogue : Table :=
  {| rows := <[3 := row "Teclado" 30 false 7]>
               (<[1 := row "Monitor Curvo" 300 true 5]>
                  (<[2 := row "Mouse" 50 true 6]> ∅));
     autoIncrement := 4;
     now := 100 |}.

(** A request on the sample catalogue: status and document. *)
Definition answer (m : Method) (path : list string) (payload : Value) : Z * option Value :=
  let r := res (serve m path payload (start catalogue)) in
  (statusCode r, sent r).

(** The same when the next call of [c] is rejected by the storage. *)
Definition answer_failing (c : Faulty.Call) (m : Method) (path : list string) (payload : Value)
  : Z * option Value :=
  let r := res (serve m path payload
                  (start {| Faulty.failing := [c]; Faulty.table := catalogue |})) in
  (statusCode r, sent r).

Definition monitor : Value :=
  JObj [("name", JStr "Monitor Curvo"); ("availability", JBool true); ("price", JNum 300)].

End Sample.

(** ** The answers of the routes *)
Module Answers.

Section answers.
Context {S : Type}.

(** The answers of a resource handler: not found, storage failure, or the
    data, with 201 for a create and 200 otherwise. *)
Definition handler_answer (m : Method) (w : World S) : Prop :=
  (statusCode (res w) = 404
   ∧ sent (res w) = Some (JObj [("error", JStr "Producto no encontrado")]))
  ∨ (statusCode (res w) = 500
     ∧ sent (res w) = Some (JObj [("error", JStr "Database error")])
     ∧ console w ≠ [])
  ∨ (statusCode (res w) = (if method_eqb m POST then 201 else 200)
     ∧ ∃ data, sent (res w) = Some (JObj [("data", data)])).

(** The answer of the input-error middleware. *)
Definition rejection_answer (s : S) (w : World S) : Prop :=
  statusCode (res w) = 400
  ∧ db w = s
  ∧ ∃ entry entries, sent (res w) = Some (JObj [("errors", JArr (entry :: entries))]).

End answers.


End Answers.
Export Answers.

(** * Properties *)

(** ** The validation pipeline *)
Section validation.
Import ExpressValidator.
Context {S : Type}.

Lemma with_contexts_same (w : World S) : with_contexts (contexts w) w = w.
Proof. by destruct w. Qed.

Lemma violations_cons (c : ValidationChain) (chains : list ValidationChain) (req : Request) :
  violations (c :: chains) req = run c req ++ violations chains req.
Proof. reflexivity. Qed.

Lemma violations_app (a b : list ValidationChain) (req : Request) :
  violations (a ++ b) req = violations a req ++ violations b req.
Proof. unfold violations. apply bind_app. Qed.

(** The chains of a stack run one after the other and add their errors to
    the ones on the request; nothing else changes. *)
Lemma dispatch_validate (chains : list ValidationChain)
    (rest : list (Middleware (S := S))) (req : Request) (w : World S) :
  dispatch ((validate <$> chains) ++ rest) req w =
  dispatch rest req (with_contexts (contexts w ++ violations chains req) w).
Proof.
  revert w. induction chains as [|c chains IH]; intros w.
  - cbn [fmap list_fmap app]. unfold violations. cbn [mbind list_bind].
    by rewrite app_nil_r, with_contexts_same.
  - rewrite violations_cons. cbn [fmap list_fmap app dispatch validate].
    change (list_fmap _ _ validate chains) with (validate <$> chains).
    rewrite IH. cbn [contexts with_contexts]. by rewrite app_assoc.
Qed.

Lemma handle_ends (h : Request -> Async (S := S) unit) (req : Request) (w : World S) :
  dispatch [handle h] req w = (handle h req w).2.
Proof. cbn [dispatch]. unfold handle. by destruct (h req w) as [[?|?] ?]. Qed.

(** A validated stack either rejects the request with its violations,
    whatever the handler is, or is the handler on the world as it was. *)
Lemma validated_dispatch (chains : list ValidationChain)
    (h : Request -> Async (S := S) unit) (req : Request) (s : S) :
  dispatch (validated chains h) req (start s) =
  match violations chains req with
  | [] => (handle h req (start s)).2
  | errors => with_res (rejection errors) (with_contexts errors (start s))
  end.
Proof.
  unfold validated. rewrite dispatch_validate. cbn [contexts start app].
  destruct (violations chains req) as [|e errors] eqn:E.
  - cbn [dispatch handleInputErrors validationResult contexts with_contexts].
    apply handle_ends.
  - reflexivity.
Qed.

(** The violations are the errors of the validators that fail, no more and
    no fewer. *)
Lemma elem_of_violations (chains : list ValidationChain) (req : Request)
    (e : ValidationError) :
  e ∈ violations chains req ↔
  ∃ c item x, c ∈ chains ∧ item ∈ stack c ∧ x ∈ subjects item (select c req)
              ∧ fails item x = true ∧ e = error c item x.
Proof.
  unfold violations, run, run_item. rewrite list_elem_of_bind. split.
  - intros (c & He & Hc). apply list_elem_of_bind in He as (item & He & Hitem).
    apply list_elem_of_fmap in He as (x & -> & Hx).
    apply list_elem_of_filter in Hx as [Hf Hx]. by exists c, item, x.
  - intros (c & item & x & Hc & Hitem & Hx & Hf & ->).
    exists c. split; [|done]. apply list_elem_of_bind. exists item. split; [|done].
    apply list_elem_of_fmap. exists x. split; [done|].
    by apply list_elem_of_filter.
Qed.

Lemma error_json_msg (e : ValidationError) : get "msg" (error_json e) = JStr (msg e).
Proof. unfold error_json. by destruct (value e). Qed.

End validation.

(** ** The routes, one request at a time *)
Section serving.
Import ExpressValidator.
Context {S : Type} {Product : Model S}.

Lemma bind_params_id (id : string) :
  id ≠ "" → bind_params with_id [id] = Some [("id", id)].
Proof. intros Hid. unfold bind_params. by destruct id. Qed.

Lemma isInt_nonempty (id : string) : validator.isInt id = true → id ≠ "".
Proof. by intros H ->. Qed.

Lemma serve_list (payload : Value) (w : World S) :
  serve GET [] payload w
  = dispatch [handle getProducts] {| params := []; Express.body := payload |} w.
Proof. reflexivity. Qed.

Lemma serve_create (payload : Value) (w : World S) :
  serve POST [] payload w
  = dispatch (validated createRules createProduct)
      {| params := []; Express.body := payload |} w.
Proof. reflexivity. Qed.

Lemma serve_get (id : string) (payload : Value) (w : World S) :
  id ≠ "" →
  serve GET [id] payload w
  = dispatch (validated idRules getProductsById)
      {| params := [("id", id)]; Express.body := payload |} w.
Proof.
  intros Hid. unfold serve. cbn [find_route router method pattern method_eqb].
  by rewrite (bind_params_id id Hid).
Qed.

Lemma serve_update (id : string) (payload : Value) (w : World S) :
  id ≠ "" →
  serve PUT [id] payload w
  = dispatch (validated updateRules updateProduct)
      {| params := [("id", id)]; Express.body := payload |} w.
Proof.
  intros Hid. unfold serve. cbn [find_route router method pattern method_eqb].
  by rewrite (bind_params_id id Hid).
Qed.

Lemma serve_toggle (id : string) (payload : Value) (w : World S) :
  id ≠ "" →
  serve PATCH [id] payload w
  = dispatch (validated idRules updateAvailability)
      {| params := [("id", id)]; Express.body := payload |} w.
Proof.
  intros Hid. unfold serve. cbn [find_route router method pattern method_eqb].
  by rewrite (bind_params_id id Hid).
Qed.

Lemma serve_delete (id : string) (payload : Value) (w : World S) :
  id ≠ "" →
  serve DELETE [id] payload w
  = dispatch (validated idRules deleteProduct)
      {| params := [("id", id)]; Express.body := payload |} w.
Proof.
  intros Hid. unfold serve. cbn [find_route router method pattern method_eqb].
  by rewrite (bind_params_id id Hid).
Qed.

(** The rule on the route parameter passes exactly the numerals. *)
Lemma violations_idRules (id : string) (payload : Value) :
  violations idRules {| params := [("id", id)]; Express.body := payload |}
  = if validator.isInt id then []
    else [{| value := JStr id; msg := "ID no válido"; path := "id";
             error_location := in_params |}].
Proof.
  unfold violations, idRules, run, run_item.
  cbn -[validator.isInt].
  by destruct (validator.isInt id).
Qed.

(** A request with a numeral for [id] reaches the handler of its route. *)
Lemma validated_id_passes (h : Request -> Async (S := S) unit)
    (id : string) (payload : Value) (s : S) :
  validator.isInt id = true →
  dispatch (validated idRules h)
    {| params := [("id", id)]; Express.body := payload |} (start s)
  = (handle h {| params := [("id", id)]; Express.body := payload |} (start s)).2.
Proof. intros Hid. by rewrite validated_dispatch, violations_idRules, Hid. Qed.

End serving.

(** ** Validation of requests *)
Section requests.
Import ExpressValidator.

(** C1.  Every route of the router but the list route is a validated stack:
    its rules, the input-error middleware, its handler.  On such a stack
    the violations of a request are exactly the errors of the validators
    that fail on it, each with the message of its validator.  If there is a
    violation the response is 400 with the document [{ errors }] of the
    violations, each entry with its [msg], and the world is otherwise as
    the request found it, whatever the handler is: the handler did not
    run.  If there is none, the outcome is the handler's on the world as
    the request found it. *)
Theorem validated_route_rejects_or_passes {S : Type} {Product : Model S} :
  Router.stack <$> router (S := S)
  = [ [handle getProducts];
      validated idRules getProductsById;
      validated createRules createProduct;
      validated updateRules updateProduct;
      validated idRules updateAvailability;
      validated idRules deleteProduct ]
  ∧ (∀ chains (h : Request -> Async (S := S) unit) req s,
       dispatch (validated chains h) req (start s)
       = match violations chains req with
         | [] => (handle h req (start s)).2
         | errors => with_res (rejection errors) (with_contexts errors (start s))
         end)
  ∧ (∀ chains req e,
       e ∈ violations chains req ↔
       ∃ c item x, c ∈ chains ∧ item ∈ stack c ∧ x ∈ subjects item (select c req)
                   ∧ fails item x = true ∧ e = error c item x)
  ∧ (∀ c item x, msg (error c item x) = message item)
  ∧ (∀ errors, messages_of (rejection errors) = Some ((λ e, JStr (msg e)) <$> errors)).
Proof.
  split; [reflexivity|]. split; [apply validated_dispatch|].
  split; [apply elem_of_violations|]. split; [reflexivity|].
  unfold messages_of.
  intros errors. cbn [errors_of rejection sent fmap option_fmap option_map].
  f_equal. induction errors as [|e errors IH]; [done|].
  cbn [fmap list_fmap] in *. by rewrite error_json_msg, IH.
Qed.

(** C2.  Create: the empty body has exactly four violations; a body with a
    name and the price 0 has exactly one, "El precio no es válido"; a body
    with a name and the price "Hola" has exactly two, the non-numeric and
    the not-positive one; each time the response is 400. *)
Theorem create_violation_counts {S : Type} {Product : Model S} (s : S) (name : string) :
  name ≠ "" →
  let empty := res (serve POST [] (JObj []) (start s)) in
  let zero :=
    res (serve POST [] (JObj [("name", JStr name); ("price", JNum 0)]) (start s)) in
  let hola :=
    res (serve POST [] (JObj [("name", JStr name); ("price", JStr "Hola")]) (start s)) in
  (statusCode empty = 400
   ∧ length <$> errors_of empty = Some 4%nat
   ∧ messages_of empty
     = Some [JStr "El nombre del producto no puede estar vacío";
             JStr "Valor no válido";
             JStr "El precio del producto no puede estar vacío";
             JStr "El precio no es válido"])
  ∧ (statusCode zero = 400
     ∧ length <$> errors_of zero = Some 1%nat
     ∧ messages_of zero = Some [JStr "El precio no es válido"])
  ∧ (statusCode hola = 400
     ∧ length <$> errors_of hola = Some 2%nat
     ∧ messages_of hola = Some [JStr "Valor no válido"; JStr "El precio no es válido"]).
Proof.
  intros Hname empty zero hola. subst empty zero hola.
  destruct name as [|a name]; [done|].
  rewrite !serve_create, !validated_dispatch.
  repeat split; vm_compute; reflexivity.
Qed.

Lemma create_violation_counts_witness :
  "Monitor Curvado" ≠ ""
  ∧ statusCode (res (serve POST [] (JObj []) (start Sample.catalogue))) = 400
  ∧ messages_of
      (res (serve POST []
              (JObj [("name", JStr "Monitor Curvado"); ("price", JNum 0)])
              (start Sample.catalogue)))
    = Some [JStr "El precio no es válido"]
  ∧ messages_of
      (res (serve POST []
              (JObj [("name", JStr "Monitor Curvado"); ("price", JStr "Hola")])
              (start Sample.catalogue)))
    = Some [JStr "Valor no válido"; JStr "El precio no es válido"].
Proof.
  assert (Hname : "Monitor Curvado" ≠ "") by discriminate.
  pose proof (create_violation_counts Sample.catalogue "Monitor Curvado" Hname) as H.
  cbv zeta in H. destruct H as ((H1 & _ & _) & (_ & _ & H2) & (_ & _ & H3)).
  exact (conj Hname (conj H1 (conj H2 H3))).
Defined.

(** C3.  Full update with a numeral for [id]: the empty body is answered
    400 with exactly five violations; a body with a name, a boolean
    availability and the price 0 is answered 400 with exactly one
    violation, whose message is "El precio no es válido". *)
Theorem update_violation_counts {S : Type} {Product : Model S}
    (s : S) (id name : string) (availability : bool) :
  validator.isInt id = true →
  name ≠ "" →
  let empty := res (serve PUT [id] (JObj []) (start s)) in
  let zero :=
    res (serve PUT [id]
           (JObj [("name", JStr name); ("availability", JBool availability);
                  ("price", JNum 0)])
           (start s)) in
  (statusCode empty = 400
   ∧ length <$> errors_of empty = Some 5%nat
   ∧ messages_of empty
     = Some [JStr "El nombre del producto no puede estar vacío";
             JStr "Valor no válido";
             JStr "El precio del producto no puede estar vacío";
             JStr "El precio no es válido";
             JStr "Valor para la disponibilidad no válida "])
  ∧ (statusCode zero = 400
     ∧ length <$> errors_of zero = Some 1%nat
     ∧ messages_of zero = Some [JStr "El precio no es válido"]).
Proof.
  intros Hid Hname empty zero. subst empty zero.
  pose proof (isInt_nonempty id Hid) as Hne.
  destruct name as [|a name]; [done|].
  rewrite !serve_update, !validated_dispatch by done.
  unfold updateRules. rewrite !violations_app, !violations_idRules, Hid.
  destruct availability; repeat split; vm_compute; reflexivity.
Qed.

Lemma update_violation_counts_witness :
  validator.isInt "1" = true
  ∧ "Monitor Curvo" ≠ ""
  ∧ length <$> errors_of (res (serve PUT ["1"] (JObj []) (start Sample.catalogue)))
    = Some 5%nat
  ∧ messages_of
      (res (serve PUT ["1"]
              (JObj [("name", JStr "Monitor Curvo"); ("availability", JBool true);
                     ("price", JNum 0)])
              (start Sample.catalogue)))
    = Some [JStr "El precio no es válido"].
Proof.
  assert (Hid : validator.isInt "1" = true) by reflexivity.
  assert (Hname : "Monitor Curvo" ≠ "") by discriminate.
  pose proof (update_violation_counts Sample.catalogue "1" "Monitor Curvo" true Hid Hname)
    as H.
  cbv zeta in H. destruct H as ((_ & H1 & _) & (_ & _ & H2)).
  exact (conj Hid (conj Hname (conj H1 H2))).
Defined.

End requests.

(** ** The table in memory *)
Section table.

Lemma assoc_assign_eq (key : string) (v : Value) (l : list (string * Value)) :
  assoc key (assign key v l) = Some v.
Proof.
  induction l as [|[k old] l IH]; cbn [assign assoc].
  - by rewrite String.eqb_refl.
  - destruct (String.eqb k key) eqn:E; cbn [assoc]; by rewrite E.
Qed.

Lemma assoc_assign_ne (key key' : string) (v : Value) (l : list (string * Value)) :
  key ≠ key' → assoc key' (assign key v l) = assoc key' l.
Proof.
  intros Hne. induction l as [|[k old] l IH]; cbn [assign assoc].
  - by apply String.eqb_neq in Hne as ->.
  - destruct (String.eqb k key) eqn:E; cbn [assoc]; [|by rewrite IH].
    apply String.eqb_eq in E as ->. by apply String.eqb_neq in Hne as ->.
Qed.

Lemma Value_eqb_refl : ∀ v : Value, Value_eqb v v = true.
Proof.
  fix IH 1. intros [| |b|n|s|items|fields]; cbn [Value_eqb]; try reflexivity.
  - by destruct b.
  - apply Z.eqb_refl.
  - apply String.eqb_refl.
  - induction items as [|x items IHitems]; [reflexivity|].
    by rewrite IH, IHitems.
  - induction fields as [|[k x] fields IHfields]; [reflexivity|].
    by rewrite String.eqb_refl, IH, IHfields.
Qed.

(** The flipped flag is never the flag it was computed from. *)
Lemma Value_eqb_logical_not (v : Value) : Value_eqb (logical_not v) v = false.
Proof. destruct v as [| |[|]| | | |]; reflexivity. Qed.

Lemma column_id (row : Z * list (string * Value)) : column "id" row = JNum row.1.
Proof. reflexivity. Qed.

(** A numeral denotes a key. *)
Lemma primaryKey_numeral (id : string) :
  validator.isInt id = true → ∃ k, primaryKey (JStr id) = Some k.
Proof.
  intros Hid. unfold primaryKey. rewrite Hid.
  assert (Hd : ∀ cs acc, forallb is_digit cs = true → ∃ n, digits_in 10 cs acc = Some n).
  { induction cs as [|c cs IH]; intros acc Hcs; [by eexists|].
    cbn [forallb] in Hcs. apply andb_true_iff in Hcs as [Hc Hcs].
    cbn [digits_in]. unfold digit_value. unfold is_digit in Hc. rewrite Hc.
    apply andb_true_iff in Hc as [H1 H2].
    apply Z.leb_le in H1, H2.
    replace (code c - 48 <? 10) with true by (symmetry; apply Z.ltb_lt; lia).
    apply IH, Hcs. }
  unfold validator.isInt, validator.digits in Hid.
  destruct (list_ascii_of_string id) as [|c cs] eqn:E; [done|].
  assert (Hcases : c = "-"%char ∨ c = "+"%char ∨ validator.strip_sign (c :: cs) = c :: cs).
  { destruct c as [[] [] [] [] [] [] [] []]; auto. }
  destruct Hcases as [-> | [-> | Hs]].
  - cbn [validator.strip_sign] in Hid. destruct cs as [|c cs]; [done|].
    destruct (Hd (c :: cs) 0 Hid) as [n ->]. by eexists.
  - cbn [validator.strip_sign] in *. destruct cs as [|c cs]; [done|].
    destruct (Hd (c :: cs) 0 Hid) as [n Hn]. exists n.
    by rewrite <- Hn.
  - rewrite Hs in Hid. destruct (Hd (c :: cs) 0 Hid) as [n Hn].
    exists n. rewrite <- Hn, <- Hs.
    destruct c as [[] [] [] [] [] [] [] []]; try reflexivity; done.
Qed.

End table.

(** ** The availability toggle *)
Section toggle.

Lemma flag_of_instance (k : Z) (attrs : list (string * Value)) :
  logical_not (getDataValue "availability" (build (k, attrs)))
  = logical_not (column "availability" (k, attrs)).
Proof.
  unfold getDataValue, column. cbn. by destruct (assoc "availability" attrs).
Qed.

Lemma setDataValue_build (key : string) (v : Value) (k : Z) (attrs : list (string * Value)) :
  key ≠ "id" →
  setDataValue key v (build (k, attrs)) = build (k, assign key v attrs).
Proof.
  intros Hkey. unfold setDataValue, build. cbn [dataValues fst snd assign].
  assert (String.eqb "id" key = false) as ->; [|done].
  apply String.eqb_neq. congruence.
Qed.

Lemma getDataValue_build (key : string) (k : Z) (attrs : list (string * Value)) :
  key ≠ "id" →
  getDataValue key (build (k, attrs))
  = match assoc key attrs with Some v => v | None => JUndefined end.
Proof.
  intros Hkey. unfold getDataValue, build. cbn [dataValues fst snd assoc].
  assert (String.eqb "id" key = false) as ->; [|done].
  apply String.eqb_neq. congruence.
Qed.

(** An attribute that was not assigned does not count as changed. *)
Lemma differs_untouched (k : Z) (attrs : list (string * Value))
    (key c : string) (v : Value) :
  c ≠ "id" → key ≠ c →
  differs (build (k, assign key v attrs)) (k, attrs) c = false.
Proof.
  intros Hid Hkey. unfold differs, column, build. cbn [dataValues fst snd assoc].
  assert (String.eqb "id" c = false) as ->
    by (apply String.eqb_neq; congruence).
  assert (String.eqb c "id" = false) as -> by by apply String.eqb_neq.
  rewrite assoc_assign_ne by done.
  destruct (assoc c attrs); [|done]. by rewrite Value_eqb_refl.
Qed.

Lemma changed_toggled (k : Z) (attrs : list (string * Value)) :
  changed
    (build (k, assign "availability" (logical_not (column "availability" (k, attrs))) attrs))
    (k, attrs)
  = ["availability"].
Proof.
  unfold changed, writable. cbn [filter list_filter].
  rewrite !differs_untouched by done.
  assert (differs
            (build (k, assign "availability"
                         (logical_not (column "availability" (k, attrs))) attrs))
            (k, attrs) "availability" = true) as Hflag.
  { unfold differs, build. cbn [dataValues fst snd assoc String.eqb Ascii.eqb Bool.eqb].
    by rewrite assoc_assign_eq, Value_eqb_logical_not. }
  rewrite Hflag. repeat case_decide; done.
Qed.

Lemma mem_save_toggled (t : Table) (k : Z) (attrs : list (string * Value)) :
  rows t !! k = Some attrs →
  mem_save
    (setDataValue "availability"
       (logical_not (getDataValue "availability" (build (k, attrs))))
       (build (k, attrs))) t
  = (Resolved (),
     build (k, toggled t k attrs),
     with_rows (<[k := toggled t k attrs]> (rows t)) t).
Proof.
  intros Hrow. rewrite flag_of_instance.
  set (flag := logical_not (column "availability" (k, attrs))).
  rewrite setDataValue_build by done.
  unfold mem_save.
  change (getDataValue "id" (build (k, assign "availability" flag attrs))) with (JNum k).
  cbn [primaryKey]. rewrite Hrow. subst flag. rewrite changed_toggled.
  rewrite setDataValue_build by done.
  cbn [foldr]. rewrite !getDataValue_build by done.
  rewrite assoc_assign_eq, assoc_assign_ne, assoc_assign_eq by done.
  reflexivity.
Qed.

Lemma updateAvailability_present (t : Table) (id : string) (k : Z)
    (attrs : list (string * Value)) (payload : Value) :
  primaryKey (JStr id) = Some k →
  rows t !! k = Some attrs →
  updateAvailability {| params := [("id", id)]; Express.body := payload |} (start t)
  = (Resolved (),
     {| db := with_rows (<[k := toggled t k attrs]> (rows t)) t;
        res := {| statusCode := 200;
                  sent := Some (JObj [("data", toJSON (build (k, toggled t k attrs)))]) |};
        contexts := []; console := []; unhandled := [] |}).
Proof.
  intros Hk Hrow.
  unfold updateAvailability, try_catch, bind, await.
  cbn [param_value params assoc String.eqb Ascii.eqb Bool.eqb findByPk memory db start].
  unfold mem_findByPk. rewrite Hk, Hrow. cbn [fmap option_fmap option_map].
  unfold await_on. cbn [save memory db with_db]. by rewrite mem_save_toggled.
Qed.




End toggle.

(** ** Deleting a product *)
Section delete.

Lemma deleteProduct_present (t : Table) (id : string) (k : Z)
    (attrs : list (string * Value)) (payload : Value) :
  primaryKey (JStr id) = Some k →
  rows t !! k = Some attrs →
  deleteProduct {| params := [("id", id)]; Express.body := payload |} (start t)
  = (Resolved (),
     {| db := with_rows (delete k (rows t)) t;
        res := {| statusCode := 200;
                  sent := Some (JObj [("data", JStr "Producto eliminado")]) |};
        contexts := []; console := []; unhandled := [] |}).
Proof.
  intros Hk Hrow.
  unfold deleteProduct, try_catch, bind, await.
  cbn [param_value params assoc String.eqb Ascii.eqb Bool.eqb findByPk memory db start].
  unfold mem_findByPk. by rewrite Hk, Hrow.
Qed.

Lemma deleteProduct_absent (t : Table) (id : string) (k : Z) (payload : Value) :
  primaryKey (JStr id) = Some k →
  rows t !! k = None →
  deleteProduct {| params := [("id", id)]; Express.body := payload |} (start t)
  = (Resolved (),
     {| db := t;
        res := {| statusCode := 404;
                  sent := Some (JObj [("error", JStr "Producto no encontrado")]) |};
        contexts := []; console := []; unhandled := [] |}).
Proof.
  intros Hk Hrow.
  unfold deleteProduct, try_catch, bind, await.
  cbn [param_value params assoc String.eqb Ascii.eqb Bool.eqb findByPk memory db start].
  unfold mem_findByPk. by rewrite Hk, Hrow.
Qed.

Lemma getProductsById_present (t : Table) (id : string) (k : Z)
    (attrs : list (string * Value)) (payload : Value) :
  primaryKey (JStr id) = Some k →
  rows t !! k = Some attrs →
  getProductsById {| params := [("id", id)]; Express.body := payload |} (start t)
  = (Resolved (),
     {| db := t;
        res := {| statusCode := 200;
                  sent := Some (JObj [("data", toJSON (build (k, attrs)))]) |};
        contexts := []; console := []; unhandled := [] |}).
Proof.
  intros Hk Hrow.
  unfold getProductsById, try_catch, bind, await.
  cbn [param_value params assoc String.eqb Ascii.eqb Bool.eqb findByPk memory db start].
  unfold mem_findByPk. by rewrite Hk, Hrow.
Qed.

Lemma getProductsById_absent (t : Table) (id : string) (k : Z) (payload : Value) :
  primaryKey (JStr id) = Some k →
  rows t !! k = None →
  getProductsById {| params := [("id", id)]; Express.body := payload |} (start t)
  = (Resolved (),
     {| db := t;
        res := {| statusCode := 404;
                  sent := Some (JObj [("error", JStr "Producto no encontrado")]) |};
        contexts := []; console := []; unhandled := [] |}).
Proof.
  intros Hk Hrow.
  unfold getProductsById, try_catch, bind, await.
  cbn [param_value params assoc String.eqb Ascii.eqb Bool.eqb findByPk memory db start].
  unfold mem_findByPk. by rewrite Hk, Hrow.
Qed.

(** C5.  Delete with a numeral for [id].  If the product is present its row
    is removed, the response is 200 with [data] "Producto eliminado", and
    a get of the same [id] that follows is answered 404.  If it is absent
    the response is 404 with [error] "Producto no encontrado". *)
Theorem delete_removes_product (t : Table) (id : string) (k : Z) (payload next : Value) :
  validator.isInt id = true →
  primaryKey (JStr id) = Some k →
  let w := serve DELETE [id] payload (start t) in
  match rows t !! k with
  | Some _ =>
      statusCode (res w) = 200
      ∧ sent (res w) = Some (JObj [("data", JStr "Producto eliminado")])
      ∧ rows (db w) = delete k (rows t)
      ∧ rows (db w) !! k = None
      ∧ statusCode (res (serve GET [id] next (start (db w)))) = 404
  | None =>
      statusCode (res w) = 404
      ∧ sent (res w) = Some (JObj [("error", JStr "Producto no encontrado")])
      ∧ db w = t
  end.
Proof.
  intros Hid Hk w. subst w.
  pose proof (isInt_nonempty id Hid) as Hne.
  rewrite serve_delete, validated_id_passes by done.
  unfold handle.
  destruct (rows t !! k) as [attrs|] eqn:Hrow.
  - rewrite (deleteProduct_present t id k attrs payload Hk Hrow).
    cbn [snd res db statusCode sent rows with_rows].
    repeat split; [apply lookup_delete_eq|].
    rewrite serve_get, validated_id_passes by done.
    unfold handle. rewrite (getProductsById_absent _ id k next Hk); [done|].
    apply lookup_delete_eq.
  - by rewrite (deleteProduct_absent t id k payload Hk Hrow).
Qed.

Lemma delete_removes_product_witness :
  validator.isInt "1" = true
  ∧ primaryKey (JStr "1") = Some 1
  ∧ sent (res (serve DELETE ["1"] JUndefined (start Sample.catalogue)))
    = Some (JObj [("data", JStr "Producto eliminado")])
  ∧ statusCode
      (res (serve GET ["1"] JUndefined
              (start (db (serve DELETE ["1"] JUndefined (start Sample.catalogue))))))
    = 404.
Proof.
  assert (Hid : validator.isInt "1" = true) by reflexivity.
  assert (Hk : primaryKey (JStr "1") = Some 1) by reflexivity.
  pose proof (delete_removes_product Sample.catalogue "1" 1 JUndefined JUndefined Hid Hk)
    as H.
  cbv zeta in H.
  assert (Hrow : rows Sample.catalogue !! 1 = Some (Sample.row "Monitor Curvo" 300 true 5))
    by (vm_compute; reflexivity).
  rewrite Hrow in H. destruct H as (_ & Hsent & _ & _ & Hnext).
  exact (conj Hid (conj Hk (conj Hsent Hnext))).
Defined.

End delete.

(** ** Listing the products *)
Section listing.

Lemma precedes_id_desc (r1 r2 : Z * list (string * Value)) :
  precedes [("id", DESC)] r1 r2 ↔ r2.1 ≤ r1.1.
Proof.
  unfold precedes. cbn [compare_rows]. rewrite !column_id.
  cbn [compare_values]. rewrite <- Z.compare_le_iff.
  by destruct (r2.1 ?= r1.1).
Qed.

#[local] Instance precedes_id_desc_trans : Transitive (precedes [("id", DESC)]).
Proof. intros x y z. rewrite !precedes_id_desc. lia. Qed.

#[local] Instance precedes_id_desc_total : Total (precedes [("id", DESC)]).
Proof. intros x y. rewrite !precedes_id_desc. lia. Qed.

(** Descending keys without repetition are strictly descending. *)
Lemma strictly_descending (l : list (Z * list (string * Value))) :
  NoDup l.*1 →
  StronglySorted (precedes [("id", DESC)]) l →
  StronglySorted (λ r1 r2, r2.1 < r1.1) l.
Proof.
  induction 2 as [|r l Hl IH Hr]; [constructor|].
  cbn [fmap list_fmap] in H. apply NoDup_cons in H as [Hr1 Hnd].
  constructor; [by apply IH|].
  apply Forall_forall. intros r' Hr'.
  rewrite Forall_forall in Hr. specialize (Hr r' Hr').
  apply precedes_id_desc in Hr.
  assert (r'.1 ≠ r.1); [|lia].
  intros Heq. apply Hr1. rewrite <- Heq. apply list_elem_of_fmap. by exists r'.
Qed.

(** Looking a key up in what a filter on keys leaves. *)
Lemma assoc_filter (p : string → bool) (c : string) (l : list (string * Value)) :
  assoc c (filter (λ kv, p kv.1 = false) l) = if p c then None else assoc c l.
Proof.
  induction l as [|[k v] l IH]; [by destruct (p c)|].
  rewrite filter_cons. cbn [fst assoc].
  destruct (String.eqb k c) eqn:E.
  - apply String.eqb_eq in E as ->. case_decide as Hp.
    + cbn [assoc]. by rewrite String.eqb_refl, Hp.
    + rewrite IH. by destruct (p c).
  - case_decide as Hp; [|done]. cbn [assoc]. by rewrite E.
Qed.

Lemma getProducts_memory (t : Table) (req : Request) :
  getProducts req (start t)
  = (Resolved (),
     {| db := t;
        res := {| statusCode := 200;
                  sent := Some (JObj [("data",
                            JArr (toJSON <$>
                                    (without ["createdAt"; "updatedAt"] <$>
                                       (build <$> merge_sort (precedes [("id", DESC)])
                                                    (map_to_list (rows t))))))]) |};
        contexts := []; console := []; unhandled := [] |}).
Proof. reflexivity. Qed.

(** C7.  The list operation answers 200 with [{ data }]: one entry for
    every row of the table, in strictly descending order of [id], each
    entry the row's attributes without [createdAt] and [updatedAt]; the
    table is as it was. *)
Theorem list_returns_all_rows_newest_first (t : Table) (payload : Value) :
  let w := serve GET [] payload (start t) in
  ∃ (listed : list (Z * list (string * Value))) (entries : list Value),
    listed ≡ₚ map_to_list (rows t)
    ∧ StronglySorted (λ r1 r2, r2.1 < r1.1) listed
    ∧ statusCode (res w) = 200
    ∧ sent (res w) = Some (JObj [("data", JArr entries)])
    ∧ Forall2 (λ r entry,
                 get "id" entry = JNum r.1
                 ∧ get "createdAt" entry = JUndefined
                 ∧ get "updatedAt" entry = JUndefined
                 ∧ ∀ c, c ≠ "createdAt" → c ≠ "updatedAt" →
                        get c entry = get c (toJSON (build r)))
        listed entries
    ∧ db w = t.
Proof.
  intros w. subst w. rewrite serve_list, handle_ends. unfold handle.
  rewrite getProducts_memory. cbn [snd res db statusCode sent].
  set (listed := merge_sort (precedes [("id", DESC)]) (map_to_list (rows t))).
  assert (Hperm : listed ≡ₚ map_to_list (rows t)) by apply merge_sort_Permutation.
  exists listed, (toJSON <$> (without ["createdAt"; "updatedAt"] <$> (build <$> listed))).
  split; [done|]. split.
  { apply strictly_descending.
    - rewrite Hperm. apply NoDup_fst_map_to_list.
    - apply (StronglySorted_merge_sort _). }
  split; [done|]. split; [done|]. split; [|done].
  rewrite <- !list_fmap_compose. apply Forall2_fmap_r, Forall_Forall2_diag.
  apply Forall_forall. intros [k attrs] _.
  unfold compose, toJSON, without, build. cbn [dataValues fst snd get].
  rewrite !(assoc_filter (λ key, existsb (String.eqb key) ["createdAt"; "updatedAt"])).
  cbn [existsb String.eqb Ascii.eqb Bool.eqb orb assoc].
  repeat split.
  intros c Hc Hu.
  rewrite (assoc_filter (λ key, existsb (String.eqb key) ["createdAt"; "updatedAt"])).
  cbn [existsb orb].
  apply String.eqb_neq in Hc, Hu. by rewrite Hc, Hu.
Qed.
End listing.

(** ** Storage failures *)
Section failures.
Context {S : Type} {Product : Model S}.

Lemma getProducts_rejected (req : Request) (w : World S) (e : Error) (s : S) :
  findAll {| order := [("id", DESC)]; exclude := ["createdAt"; "updatedAt"] |} (db w)
  = (Rejected e, s) →
  getProducts req w = (Resolved (), database_error e s w).
Proof.
  intros H. unfold getProducts, try_catch, bind, await. by rewrite H.
Qed.

Lemma getProductsById_rejected (req : Request) (w : World S) (e : Error) (s : S) :
  findByPk (param_value "id" req) (db w) = (Rejected e, s) →
  getProductsById req w = (Resolved (), database_error e s w).
Proof.
  intros H. unfold getProductsById, try_catch, bind, await. by rewrite H.
Qed.

Lemma createProduct_rejected (req : Request) (w : World S) (e : Error) (s : S) :
  create (Express.body req) (db w) = (Rejected e, s) →
  createProduct req w = (Resolved (), database_error e s w).
Proof.
  intros H. unfold createProduct, try_catch, bind, await. by rewrite H.
Qed.

Lemma updateAvailability_rejected_find (req : Request) (w : World S) (e : Error) (s : S) :
  findByPk (param_value "id" req) (db w) = (Rejected e, s) →
  updateAvailability req w = (Resolved (), database_error e s w).
Proof.
  intros H. unfold updateAvailability, try_catch, bind, await. by rewrite H.
Qed.

Lemma updateAvailability_rejected_save (req : Request) (w : World S)
    (product saved : Instance) (e : Error) (s s' : S) :
  findByPk (param_value "id" req) (db w) = (Resolved (Some product), s) →
  save (setDataValue "availability"
          (logical_not (getDataValue "availability" product)) product) s
  = (Rejected e, saved, s') →
  updateAvailability req w = (Resolved (), database_error e s' w).
Proof.
  intros Hfind Hsave. unfold updateAvailability, try_catch, bind, await, await_on.
  rewrite Hfind. cbn [db with_db]. by rewrite Hsave.
Qed.

Lemma deleteProduct_rejected_find (req : Request) (w : World S) (e : Error) (s : S) :
  findByPk (param_value "id" req) (db w) = (Rejected e, s) →
  deleteProduct req w = (Resolved (), database_error e s w).
Proof.
  intros H. unfold deleteProduct, try_catch, bind, await. by rewrite H.
Qed.

Lemma deleteProduct_rejected_destroy (req : Request) (w : World S)
    (product : Instance) (e : Error) (s s' : S) :
  findByPk (param_value "id" req) (db w) = (Resolved (Some product), s) →
  destroy product s = (Rejected e, s') →
  deleteProduct req w = (Resolved (), database_error e s' w).
Proof.
  intros Hfind Hdestroy. unfold deleteProduct, try_catch, bind, await.
  rewrite Hfind. cbn [db with_db]. by rewrite Hdestroy.
Qed.

Lemma updateProduct_rejected_find (req : Request) (w : World S) (e : Error) (s : S) :
  findByPk (param_value "id" req) (db w) = (Rejected e, s) →
  updateProduct req w = (Resolved (), database_error e s w).
Proof.
  intros H. unfold updateProduct, try_catch, bind, await. by rewrite H.
Qed.

Lemma updateProduct_rejected_save (req : Request) (w : World S)
    (product updated saved : Instance) (e : Error) (s s1 s2 : S) :
  findByPk (param_value "id" req) (db w) = (Resolved (Some product), s) →
  update (Express.body req) product s = (Resolved (), updated, s1) →
  save updated s1 = (Rejected e, saved, s2) →
  updateProduct req w = (Resolved (), database_error e s2 w).
Proof.
  intros Hfind Hupdate Hsave.
  unfold updateProduct, try_catch, bind, await, await_on, floating.
  rewrite Hfind. cbn [db with_db]. rewrite Hupdate. cbn [db with_db].
  by rewrite Hsave.
Qed.

(** The one call that is not awaited: when [update] rejects and [save]
    resolves, the handler answers as if nothing had failed. *)
Lemma updateProduct_rejected_update (req : Request) (w : World S)
    (product updated saved : Instance) (e : Error) (s s1 s2 : S) :
  findByPk (param_value "id" req) (db w) = (Resolved (Some product), s) →
  update (Express.body req) product s = (Rejected e, updated, s1) →
  save updated s1 = (Resolved (), saved, s2) →
  updateProduct req w
  = (Resolved (),
     {| db := s2;
        res := {| statusCode := statusCode (res w);
                  sent := Some (JObj [("data", toJSON saved)]) |};
        contexts := contexts w;
        console := console w;
        unhandled := unhandled w ++ [e] |}).
Proof.
  intros Hfind Hupdate Hsave.
  unfold updateProduct, try_catch, bind, await, await_on, floating.
  rewrite Hfind. cbn [db with_db]. rewrite Hupdate.
  cbn [db with_db with_unhandled]. by rewrite Hsave.
Qed.

End failures.

Section unawaited.
Import Faulty.

(** C6, at a failing input.  A full update whose [update] call is rejected
    by the storage, on a table that holds the product: the rejection is not
    caught; the response is 200 with the product, nothing is logged, and
    the promise ends as an unhandled rejection. *)
Theorem update_rejection_is_not_caught :
  let storage := {| failing := [call_update]; table := Sample.catalogue |} in
  let w :=
    serve PUT ["1"]
      (JObj [("name", JStr "Monitor Curvo"); ("availability", JBool true);
             ("price", JNum 350)])
      (start storage) in
  statusCode (res w) = 200
  ∧ error_of (res w) = JUndefined
  ∧ get "price" (data_of (res w)) = JNum 350
  ∧ console w = []
  ∧ unhandled w = ["Database error"].
Proof. vm_compute. done. Qed.

End unawaited.

(** ** What a response shows of a product *)
Section representation.

(** C8, at failing inputs.  On the sample catalogue, the product that get
    by id, create, full update and toggle answer with carries the
    [createdAt] and [updatedAt] of its row; only the list leaves them out. *)
Theorem product_responses_carry_timestamps :
  let shown (m : Method) (path : list string) (payload : Value) :=
    data_of (res (serve m path payload (start Sample.catalogue))) in
  let product :=
    JObj [("name", JStr "Monitor Curvo"); ("availability", JBool false);
          ("price", JNum 350)] in
  (get "createdAt" (shown GET ["1"] JUndefined) = JNum 5
   ∧ get "updatedAt" (shown GET ["1"] JUndefined) = JNum 5)
  ∧ (get "createdAt" (shown POST [] product) = JNum 100
     ∧ get "updatedAt" (shown POST [] product) = JNum 100)
  ∧ (get "createdAt" (shown PUT ["1"] product) = JNum 5
     ∧ get "updatedAt" (shown PUT ["1"] product) = JNum 100)
  ∧ (get "createdAt" (shown PATCH ["1"] JUndefined) = JNum 5
     ∧ get "updatedAt" (shown PATCH ["1"] JUndefined) = JNum 100).
Proof. vm_compute. done. Qed.

End representation.

(** ** The toggle and the request body *)
Section toggle_body.
Context {S : Type} {Product : Model S}.

(** C9.  The toggle does not read the body: two PATCH requests for the
    same [id] in the same world end in the same world, response and
    storage, whatever their bodies are; so does the handler on two
    requests with the same parameters. *)
Theorem toggle_ignores_body (id : string) (body1 body2 : Value) (w : World S) :
  serve PATCH [id] body1 w = serve PATCH [id] body2 w
  ∧ ∀ ps,
      updateAvailability {| params := ps; Express.body := body1 |} w
      = updateAvailability {| params := ps; Express.body := body2 |} w.
Proof.
  split; [|reflexivity].
  unfold serve. cbn [find_route router method pattern method_eqb bind_params].
  by destruct (String.eqb id "").
Qed.

End toggle_body.

(** ** Create and the request body *)
Section create_body.
Context {S : Type} {Product : Model S}.

Lemma createProduct_outcome (req : Request) (s : S) :
  (handle createProduct req (start s)).2 = created (create (Express.body req) s).
Proof.
  unfold handle, createProduct, try_catch, bind, await. cbn [db start].
  by destruct (create (Express.body req) s) as [[product|e] s'].
Qed.

(** C10.  A create request that passes validation (the answer is not 400)
    ends as [create] called on the body exactly as it was parsed ends:
    the handler hands the whole body to the persistence call. *)
Theorem create_forwards_whole_body (payload : Value) (s : S) :
  statusCode (res (serve POST [] payload (start s))) ≠ 400 →
  serve POST [] payload (start s) = created (create payload s).
Proof.
  intros Hpass. rewrite serve_create, validated_dispatch in *.
  destruct (violations createRules _) as [|e errors].
  - by rewrite createProduct_outcome.
  - by cbn [res with_res rejection statusCode] in Hpass.
Qed.

End create_body.

Lemma create_forwards_whole_body_witness :
  let payload :=
    JObj [("name", JStr "Mouse"); ("price", JStr "50"); ("availability", JBool false)] in
  statusCode (res (serve POST [] payload (start Sample.catalogue))) ≠ 400
  ∧ rows (db (serve POST [] payload (start Sample.catalogue))) !! 4
    = Some [("name", JStr "Mouse"); ("price", JStr "50"); ("availability", JBool false);
            ("createdAt", JNum 100); ("updatedAt", JNum 100)].
Proof.
  intros payload.
  assert (Hpass : statusCode (res (serve POST [] payload (start Sample.catalogue))) ≠ 400)
    by (vm_compute; discriminate).
  split; [exact Hpass|].
  rewrite (create_forwards_whole_body payload Sample.catalogue Hpass).
  vm_compute. reflexivity.
Defined.

(** ** The cases of the repository's test suite *)
Section test_suite.
Import Faulty Sample.

Example post_creates_a_product :
  (answer POST [] (JObj [("name", JStr "Mouse - Testing"); ("price", JStr "50")])).1 = 201.
Proof. reflexivity. Qed.

Example get_unknown_product :
  answer GET ["2000"] JUndefined
  = (404, Some (JObj [("error", JStr "Producto no encontrado")])).
Proof. reflexivity. Qed.

Example get_checks_the_id :
  let r := res (serve GET ["not-valid-url"] JUndefined (start Sample.catalogue)) in
  statusCode r = 400 ∧ messages_of r = Some [JStr "ID no válido"].
Proof. by vm_compute. Qed.

Example put_checks_the_id :
  let r := res (serve PUT ["not-valid-url"] monitor (start Sample.catalogue)) in
  statusCode r = 400 ∧ messages_of r = Some [JStr "ID no válido"].
Proof. by vm_compute. Qed.

Example put_unknown_product :
  answer PUT ["2000"] monitor
  = (404, Some (JObj [("error", JStr "Producto no encontrado")])).
Proof. reflexivity. Qed.

Example put_updates_a_product : (answer PUT ["1"] monitor).1 = 200.
Proof. reflexivity. Qed.

Example patch_unknown_product :
  answer PATCH ["2000"] JUndefined
  = (404, Some (JObj [("error", JStr "Producto no encontrado")])).
Proof. reflexivity. Qed.

Example delete_checks_the_id :
  let r := res (serve DELETE ["not-valid"] JUndefined (start Sample.catalogue)) in
  statusCode r = 400 ∧ messages_of r = Some [JStr "ID no válido"].
Proof. by vm_compute. Qed.

Example delete_unknown_product :
  answer DELETE ["2000"] JUndefined
  = (404, Some (JObj [("error", JStr "Producto no encontrado")])).
Proof. reflexivity. Qed.

(** The mocked rejections of the suite: each is answered 500. *)
Example mocked_rejections :
  let database_error := (500, Some (JObj [("error", JStr "Database error")])) in
  answer_failing call_create POST []
    (JObj [("name", JStr "Error Product"); ("price", JStr "100")]) = database_error
  ∧ answer_failing call_findAll GET [] JUndefined = database_error
  ∧ answer_failing call_findByPk GET ["1"] JUndefined = database_error
  ∧ answer_failing call_findByPk PUT ["1"] monitor = database_error
  ∧ answer_failing call_findByPk PATCH ["1"] JUndefined = database_error
  ∧ answer_failing call_findByPk DELETE ["1"] JUndefined = database_error.
Proof. by vm_compute. Qed.

End test_suite.

(** ** Numerals *)
Section numerals.

Lemma digits_in_app (radix : Z) (a b : list ascii) (acc : Z) :
  digits_in radix (a ++ b) acc
  = match digits_in radix a acc with
    | Some n => digits_in radix b n
    | None => None
    end.
Proof.
  revert acc. induction a as [|c a IH]; intros acc; [done|].
  cbn [app digits_in]. destruct (digit_value c) as [d|]; [|done].
  by destruct (d <? radix).
Qed.

Lemma pretty_N_char_digit (d : N) :
  (d < 10)%N →
  is_digit (pretty_N_char d) = true
  ∧ digit_value (pretty_N_char d) = Some (Z.of_N d).
Proof.
  intros Hd.
  assert (d = 0 ∨ d = 1 ∨ d = 2 ∨ d = 3 ∨ d = 4 ∨ d = 5
          ∨ d = 6 ∨ d = 7 ∨ d = 8 ∨ d = 9)%N as H by lia.
  by repeat destruct H as [->|H]; try subst d.
Qed.

(** What [pretty] puts in front of a string for a number: its decimal
    digits, most significant first. *)
Lemma pretty_N_go_digits (x : N) (s : string) :
  ∃ l, list_ascii_of_string (pretty_N_go x s) = l ++ list_ascii_of_string s
       ∧ forallb is_digit l = true
       ∧ ((0 < x)%N → l ≠ [])
       ∧ ∀ acc, digits_in 10 l acc
                = Some (acc * 10 ^ Z.of_nat (length l) + Z.of_N x).
Proof.
  revert s. induction (N.lt_wf_0 x) as [x _ IH]; intros s.
  assert (x = 0 ∨ 0 < x)%N as [->|Hx] by lia.
  - exists []. rewrite pretty_N_go_0. repeat split; [lia|].
    intros acc. cbn. f_equal. lia.
  - rewrite pretty_N_go_step by done.
    destruct (IH (x `div` 10)%N (N.div_lt x 10 Hx eq_refl)
                 (String (pretty_N_char (x `mod` 10)) s))
      as (l & Hl & Hdigits & _ & Hvalue).
    destruct (pretty_N_char_digit (x `mod` 10)%N) as [Hc Hv];
      [by apply N.mod_lt|].
    exists (l ++ [pretty_N_char (x `mod` 10)]).
    rewrite Hl. cbn [list_ascii_of_string]. rewrite <- app_assoc.
    split; [done|]. split.
    { rewrite forallb_app, Hdigits. cbn. by rewrite Hc. }
    split; [by destruct l|].
    intros acc. rewrite digits_in_app, Hvalue. cbn [digits_in]. rewrite Hv.
    replace (Z.of_N (x `mod` 10) <? 10) with true
      by (symmetry; apply Z.ltb_lt; pose proof (N.mod_lt x 10); lia).
    f_equal. rewrite length_app. cbn [length].
    rewrite Nat2Z.inj_add, Z.pow_add_r by lia.
    rewrite (N.div_mod x 10) at 3 by done.
    rewrite N2Z.inj_add, N2Z.inj_mul. change (Z.of_N 10) with 10.
    change (Z.of_nat 1) with 1. lia.
Qed.

(** A positive number prints as a non-empty string of digits whose value
    it is. *)
Lemma pretty_positive_digits (p : positive) :
  ∃ c l, list_ascii_of_string (pretty (Z.pos p)) = c :: l
         ∧ is_digit c = true
         ∧ forallb is_digit l = true
         ∧ digits_in 10 (c :: l) 0 = Some (Z.pos p).
Proof.
  destruct (pretty_N_go_digits (N.pos p) "") as (l & Hl & Hdigits & Hne & Hvalue).
  change (pretty (Z.pos p)) with (pretty_N_go (N.pos p) "").
  rewrite Hl, app_nil_r. destruct l as [|c l]; [by destruct Hne|].
  exists c, l. cbn [forallb] in Hdigits. apply andb_true_iff in Hdigits as [Hc Hl'].
  repeat split; [done..|]. by rewrite Hvalue.
Qed.

Lemma span_digits_all (l : list ascii) :
  forallb is_digit l = true → span_digits l = (l, []).
Proof.
  induction l as [|c l IH]; [done|]. cbn [forallb span_digits].
  intros [Hc Hl]%andb_true_iff. by rewrite Hc, IH.
Qed.

Lemma strip_sign_digit (c : ascii) (l : list ascii) :
  is_digit c = true → validator.strip_sign (c :: l) = c :: l.
Proof. destruct c as [[] [] [] [] [] [] [] []]; done. Qed.

Lemma digit_not_minus (c : ascii) : is_digit c = true → c ≠ "-"%char.
Proof. by intros H ->. Qed.

End numerals.

Section printed_ids.

Lemma list_ascii_append (a b : string) :
  list_ascii_of_string (a +:+ b) = list_ascii_of_string a ++ list_ascii_of_string b.
Proof.
  induction a as [|c a IH]; [done|].
  change (c :: list_ascii_of_string (a +:+ b)
          = c :: (list_ascii_of_string a ++ list_ascii_of_string b)).
  by rewrite IH.
Qed.

(** An integer, printed, is a numeral in the sense of the rules, is not
    empty, and denotes the integer as a key. *)
Lemma pretty_Z_numeral (k : Z) :
  validator.isInt (pretty k) = true
  ∧ validator.isNumeric (pretty k) = true
  ∧ validator.isEmpty (pretty k) = false
  ∧ primaryKey (JStr (pretty k)) = Some k.
Proof.
  destruct k as [|p|p].
  - done.
  - destruct (pretty_positive_digits p) as (c & l & Hs & Hc & Hl & Hv).
    assert (Hall : forallb is_digit (c :: l) = true) by (cbn; by rewrite Hc, Hl).
    assert (Hint : validator.isInt (pretty (Z.pos p)) = true).
    { unfold validator.isInt. by rewrite Hs, strip_sign_digit. }
    split; [done|]. split; [|split].
    + unfold validator.isNumeric.
      rewrite Hs, strip_sign_digit, (span_digits_all _ Hall) by done. done.
    + unfold validator.isEmpty. destruct (pretty (Z.pos p)); [discriminate Hs|done].
    + unfold primaryKey. rewrite Hint, Hs.
      destruct c as [[] [] [] [] [] [] [] []]; try discriminate Hc; exact Hv.
  - destruct (pretty_positive_digits p) as (c & l & Hs & Hc & Hl & Hv).
    assert (Hall : forallb is_digit (c :: l) = true) by (cbn; by rewrite Hc, Hl).
    assert (Hs' : list_ascii_of_string (pretty (Z.neg p)) = "-"%char :: c :: l).
    { change (pretty (Z.neg p)) with ("-" +:+ pretty (Z.pos p)).
      by rewrite list_ascii_append, Hs. }
    assert (Hint : validator.isInt (pretty (Z.neg p)) = true).
    { unfold validator.isInt. by rewrite Hs'. }
    split; [done|]. split; [|split].
    + unfold validator.isNumeric. rewrite Hs'. cbn [validator.strip_sign].
      by rewrite (span_digits_all _ Hall).
    + done.
    + unfold primaryKey. by rewrite Hint, Hs', Hv.
Qed.

End printed_ids.

(** ** Saving an instance *)
Section saving.





Lemma column_attribute (c : string) (k : Z) (attrs : list (string * Value)) :
  c ≠ "id" →
  column c (k, attrs) = match assoc c attrs with Some v => v | None => JNull end.
Proof. intros Hc. unfold column. by apply String.eqb_neq in Hc as ->. Qed.


End saving.

Section sorting_more.


End sorting_more.

(** ** More on the routes *)
Section routes_more.
Import ExpressValidator.

Lemma messages_of_rejection (errors : list ValidationError) :
  messages_of (rejection errors) = Some ((λ e, JStr (msg e)) <$> errors).
Proof.
  unfold messages_of. cbn [errors_of rejection sent fmap option_fmap option_map].
  f_equal. induction errors as [|e errors IH]; [done|].
  cbn [fmap list_fmap] in *. by rewrite error_json_msg, IH.
Qed.

(** X1.  Get by id with a numeral for [id], on the table: a present product
    is answered 200 with every attribute of its row and its [id]; an absent
    one 404 with "Producto no encontrado"; either way the table is as it
    was and nothing is logged. *)
Theorem get_by_id_answers (t : Table) (id : string) (k : Z) (payload : Value) :
  validator.isInt id = true →
  primaryKey (JStr id) = Some k →
  let w := serve GET [id] payload (start t) in
  db w = t
  ∧ console w = []
  ∧ match rows t !! k with
    | Some attrs =>
        statusCode (res w) = 200
        ∧ sent (res w) = Some (JObj [("data", JObj (("id", JNum k) :: attrs))])
    | None =>
        statusCode (res w) = 404
        ∧ sent (res w) = Some (JObj [("error", JStr "Producto no encontrado")])
    end.
Proof.
  intros Hid Hk w. subst w.
  rewrite serve_get, validated_id_passes by auto using isInt_nonempty.
  unfold handle.
  destruct (rows t !! k) as [attrs|] eqn:Hrow.
  - by rewrite (getProductsById_present t id k attrs payload Hk Hrow).
  - by rewrite (getProductsById_absent t id k payload Hk Hrow).
Qed.

Lemma get_by_id_answers_witness :
  validator.isInt "2" = true
  ∧ primaryKey (JStr "2") = Some 2
  ∧ sent (res (serve GET ["2"] JUndefined (start Sample.catalogue)))
    = Some (JObj [("data", JObj (("id", JNum 2) :: Sample.row "Mouse" 50 true 6))]).
Proof.
  assert (Hid : validator.isInt "2" = true) by reflexivity.
  assert (Hk : primaryKey (JStr "2") = Some 2) by reflexivity.
  pose proof (get_by_id_answers Sample.catalogue "2" 2 JUndefined Hid Hk) as H.
  cbv zeta in H.
  assert (Hrow : rows Sample.catalogue !! 2 = Some (Sample.row "Mouse" 50 true 6))
    by (vm_compute; reflexivity).
  rewrite Hrow in H. destruct H as (_ & _ & _ & Hsent).
  exact (conj Hid (conj Hk Hsent)).
Defined.

(** X2.  A request to an id route whose [id] is not a numeral is answered
    400, the first violation being "ID no válido" (the only one, except on
    the full update, whose body rules report too); the storage is not
    called, nothing is logged. *)
Theorem invalid_id_is_rejected {S : Type} {Product : Model S}
    (m : Method) (id : string) (payload : Value) (s : S) :
  m ≠ POST →
  id ≠ "" →
  validator.isInt id = false →
  let w := serve m [id] payload (start s) in
  statusCode (res w) = 400
  ∧ db w = s
  ∧ console w = []
  ∧ unhandled w = []
  ∧ ∃ others, messages_of (res w) = Some (JStr "ID no válido" :: others)
              ∧ (m ≠ PUT → others = []).
Proof.
  intros Hm Hne Hid w. subst w.
  destruct m; try done.
  - rewrite serve_get, validated_dispatch, violations_idRules, Hid by done.
    repeat split. by exists [].
  - rewrite serve_update, validated_dispatch by done.
    unfold updateRules. rewrite violations_app, violations_idRules, Hid.
    cbn [app res with_res]. repeat split. rewrite messages_of_rejection. by eexists.
  - rewrite serve_toggle, validated_dispatch, violations_idRules, Hid by done.
    repeat split. by exists [].
  - rewrite serve_delete, validated_dispatch, violations_idRules, Hid by done.
    repeat split. by exists [].
Qed.

Lemma invalid_id_is_rejected_witness :
  PATCH ≠ POST
  ∧ "not-valid-url" ≠ ""
  ∧ validator.isInt "not-valid-url" = false
  ∧ messages_of (res (serve PATCH ["not-valid-url"] JUndefined (start Sample.catalogue)))
    = Some [JStr "ID no válido"]
  ∧ db (serve PATCH ["not-valid-url"] JUndefined (start Sample.catalogue))
    = Sample.catalogue.
Proof.
  assert (Hm : PATCH ≠ POST) by discriminate.
  assert (Hne : "not-valid-url" ≠ "") by discriminate.
  assert (Hid : validator.isInt "not-valid-url" = false) by reflexivity.
  pose proof (invalid_id_is_rejected PATCH "not-valid-url" JUndefined
                Sample.catalogue Hm Hne Hid) as H.
  cbv zeta in H. destruct H as (_ & Hdb & _ & _ & others & Hmsg & Hothers).
  rewrite (Hothers ltac:(discriminate)) in Hmsg.
  exact (conj Hm (conj Hne (conj Hid (conj Hmsg Hdb)))).
Defined.

End routes_more.

(** ** Create, then read *)
Section create_read.







End create_read.

(** ** The full update *)
Section full_update.
Import ExpressValidator.







End full_update.

(** ** Toggling twice, deleting twice, reading *)
Section compositions.

(** X6.  Two toggles of a present product in a row: both are answered 200,
    the flag ends as the boolean value of the flag it started from, so a
    flag that was a boolean is back where it was, and name and price are
    as they were. *)
Theorem toggle_twice_restores (t : Table) (id : string) (k : Z)
    (attrs : list (string * Value)) (payload1 payload2 : Value) :
  validator.isInt id = true →
  primaryKey (JStr id) = Some k →
  rows t !! k = Some attrs →
  let w1 := serve PATCH [id] payload1 (start t) in
  let w2 := serve PATCH [id] payload2 (start (db w1)) in
  statusCode (res w1) = 200
  ∧ statusCode (res w2) = 200
  ∧ ∃ attrs2,
      rows (db w2) !! k = Some attrs2
      ∧ column "availability" (k, attrs2)
        = JBool (truthy (column "availability" (k, attrs)))
      ∧ (∀ b, column "availability" (k, attrs) = JBool b →
              column "availability" (k, attrs2) = JBool b)
      ∧ column "name" (k, attrs2) = column "name" (k, attrs)
      ∧ column "price" (k, attrs2) = column "price" (k, attrs).
Proof.
  intros Hid Hk Hrow w1 w2. subst w1 w2.
  pose proof (isInt_nonempty id Hid) as Hne.
  rewrite (serve_toggle id payload1), validated_id_passes by done.
  unfold handle at 1 2 3.
  rewrite (updateAvailability_present t id k attrs payload1 Hk Hrow).
  cbn [snd db res statusCode].
  rewrite serve_toggle, validated_id_passes by done. unfold handle.
  rewrite (updateAvailability_present _ id k (toggled t k attrs) payload2 Hk)
    by apply lookup_insert_eq.
  cbn [snd db res statusCode rows with_rows].
  split; [done|]. split; [done|].
  eexists. split; [apply lookup_insert_eq|].
  assert (Hflag : column "availability"
                    (k, toggled (with_rows (<[k:=toggled t k attrs]> (rows t)) t) k
                          (toggled t k attrs))
                  = JBool (truthy (column "availability" (k, attrs)))).
  { unfold toggled at 1. rewrite !column_attribute by done.
    rewrite assoc_assign_ne, assoc_assign_eq by done.
    unfold toggled. rewrite !column_attribute by done.
    rewrite assoc_assign_ne, assoc_assign_eq by done.
    unfold logical_not. cbn [truthy]. by rewrite negb_involutive. }
  split; [done|]. split.
  { intros b Hb. by rewrite Hflag, Hb. }
  unfold toggled. rewrite !column_attribute by done.
  by repeat first [rewrite assoc_assign_eq | rewrite assoc_assign_ne by done].
Qed.

Lemma toggle_twice_restores_witness :
  validator.isInt "1" = true
  ∧ primaryKey (JStr "1") = Some 1
  ∧ rows Sample.catalogue !! 1 = Some (Sample.row "Monitor Curvo" 300 true 5)
  ∧ ∃ attrs2,
      rows (db (serve PATCH ["1"] JUndefined
                  (start (db (serve PATCH ["1"] JUndefined (start Sample.catalogue))))))
        !! 1 = Some attrs2
      ∧ column "availability" (1, attrs2) = JBool true.
Proof.
  assert (Hid : validator.isInt "1" = true) by reflexivity.
  assert (Hk : primaryKey (JStr "1") = Some 1) by reflexivity.
  assert (Hrow : rows Sample.catalogue !! 1 = Some (Sample.row "Monitor Curvo" 300 true 5))
    by (vm_compute; reflexivity).
  destruct (toggle_twice_restores Sample.catalogue "1" 1 _ JUndefined JUndefined
              Hid Hk Hrow) as (_ & _ & attrs2 & Hrow2 & _ & Hflag & _).
  refine (conj Hid (conj Hk (conj Hrow _))).
  exists attrs2. split; [exact Hrow2|]. by apply Hflag.
Defined.

(** X7.  A GET changes nothing: whatever its path and body, the table
    after it is the table before it, nothing is logged and nothing is left
    unhandled; so the same GET asked again is answered the same. *)
Theorem get_changes_nothing (t : Table) (path : list string) (payload again : Value) :
  let w := serve GET path payload (start t) in
  db w = t
  ∧ console w = []
  ∧ unhandled w = []
  ∧ res (serve GET path again (start (db w))) = res (serve GET path again (start t)).
Proof.
  intros w.
  assert (Hw : db w = t ∧ console w = [] ∧ unhandled w = []).
  { subst w. destruct path as [|id [|? ?]].
    - rewrite serve_list, handle_ends. unfold handle. by rewrite getProducts_memory.
    - destruct (decide (id = "")) as [->|Hne]; [done|].
      rewrite serve_get, validated_dispatch, violations_idRules by done.
      destruct (validator.isInt id) eqn:Hid; [|done].
      destruct (primaryKey_numeral id Hid) as [k Hk]. unfold handle.
      destruct (rows t !! k) as [attrs|] eqn:Hrow.
      + by rewrite (getProductsById_present t id k attrs payload Hk Hrow).
      + by rewrite (getProductsById_absent t id k payload Hk Hrow).
    - done. }
  destruct Hw as (Hdb & ? & ?). by rewrite Hdb.
Qed.

(** X8.  Deleting a present product twice: the first delete is answered
    200, the second 404 with "Producto no encontrado", and the second
    leaves the table as the first left it: without that row, every other
    row in place. *)
Theorem delete_twice (t : Table) (id : string) (k : Z)
    (attrs : list (string * Value)) (payload1 payload2 : Value) :
  validator.isInt id = true →
  primaryKey (JStr id) = Some k →
  rows t !! k = Some attrs →
  let w1 := serve DELETE [id] payload1 (start t) in
  let w2 := serve DELETE [id] payload2 (start (db w1)) in
  statusCode (res w1) = 200
  ∧ statusCode (res w2) = 404
  ∧ sent (res w2) = Some (JObj [("error", JStr "Producto no encontrado")])
  ∧ db w2 = db w1
  ∧ rows (db w2) !! k = None
  ∧ ∀ j, j ≠ k → rows (db w2) !! j = rows t !! j.
Proof.
  intros Hid Hk Hrow w1 w2. subst w1 w2.
  pose proof (isInt_nonempty id Hid) as Hne.
  rewrite (serve_delete id payload1), validated_id_passes by done.
  unfold handle at 1 2 3 4 5 6 7.
  rewrite (deleteProduct_present t id k attrs payload1 Hk Hrow).
  cbn [snd db res statusCode].
  rewrite serve_delete, validated_id_passes by done. unfold handle.
  rewrite (deleteProduct_absent _ id k payload2 Hk) by apply lookup_delete_eq.
  cbn [snd db res statusCode sent rows with_rows].
  repeat split; [apply lookup_delete_eq|].
  intros j Hj. by rewrite lookup_delete_ne.
Qed.

Lemma delete_twice_witness :
  validator.isInt "3" = true
  ∧ primaryKey (JStr "3") = Some 3
  ∧ rows Sample.catalogue !! 3 = Some (Sample.row "Teclado" 30 false 7)
  ∧ statusCode
      (res (serve DELETE ["3"] JUndefined
              (start (db (serve DELETE ["3"] JUndefined (start Sample.catalogue))))))
    = 404.
Proof.
  assert (Hid : validator.isInt "3" = true) by reflexivity.
  assert (Hk : primaryKey (JStr "3") = Some 3) by reflexivity.
  assert (Hrow : rows Sample.catalogue !! 3 = Some (Sample.row "Teclado" 30 false 7))
    by (vm_compute; reflexivity).
  destruct (delete_twice Sample.catalogue "3" 3 _ JUndefined JUndefined Hid Hk Hrow)
    as (_ & Hsecond & _).
  exact (conj Hid (conj Hk (conj Hrow Hsecond))).
Defined.

End compositions.

(** ** What every request gets *)
Section answers.
Import ExpressValidator.
Context {S : Type} {Product : Model S}.

Ltac answer :=
  cbn; first
    [ left; split; reflexivity
    | right; left; split; [reflexivity|split; [reflexivity|done]]
    | right; right; split; [reflexivity|eexists; reflexivity] ].

Lemma getProducts_answers (req : Request) (s : S) :
  handler_answer GET (handle getProducts req (start s)).2.
Proof.
  unfold handler_answer, handle, getProducts, try_catch, bind, await. cbn [db start].
  destruct (findAll _ s) as [[products|e] s']; answer.
Qed.

Lemma getProductsById_answers (req : Request) (s : S) :
  handler_answer GET (handle getProductsById req (start s)).2.
Proof.
  unfold handler_answer, handle, getProductsById, try_catch, bind, await. cbn [db start].
  destruct (findByPk _ s) as [[[product|]|e] s']; answer.
Qed.

Lemma createProduct_answers (req : Request) (s : S) :
  handler_answer POST (handle createProduct req (start s)).2.
Proof.
  unfold handler_answer, handle, createProduct, try_catch, bind, await. cbn [db start].
  destruct (create _ s) as [[product|e] s']; answer.
Qed.

Lemma updateProduct_answers (req : Request) (s : S) :
  handler_answer PUT (handle updateProduct req (start s)).2.
Proof.
  unfold handler_answer, handle, updateProduct, try_catch, bind, await,
    await_on, floating.
  cbn [db start].
  destruct (findByPk _ s) as [[[product|]|e] s']; try answer.
  cbn [db with_db].
  destruct (update _ product s') as [[[[]|e1] updated] s1];
    cbn [db with_db with_unhandled];
    destruct (save updated s1) as [[[[]|e2] saved] s2]; answer.
Qed.

Lemma updateAvailability_answers (req : Request) (s : S) :
  handler_answer PATCH (handle updateAvailability req (start s)).2.
Proof.
  unfold handler_answer, handle, updateAvailability, try_catch, bind, await, await_on.
  cbn [db start].
  destruct (findByPk _ s) as [[[product|]|e] s']; try answer.
  cbn [db with_db].
  destruct (save _ s') as [[[[]|e2] saved] s2]; answer.
Qed.

Lemma deleteProduct_answers (req : Request) (s : S) :
  handler_answer DELETE (handle deleteProduct req (start s)).2.
Proof.
  unfold handler_answer, handle, deleteProduct, try_catch, bind, await.
  cbn [db start].
  destruct (findByPk _ s) as [[[product|]|e] s']; try answer.
  cbn [db with_db].
  destruct (destroy product s') as [[[]|e2] s2]; answer.
Qed.

Lemma validated_answers (chains : list ValidationChain)
    (h : Request -> Async (S := S) unit) (m : Method) (req : Request) (s : S) :
  handler_answer m (handle h req (start s)).2 →
  rejection_answer s (dispatch (validated chains h) req (start s))
  ∨ handler_answer m (dispatch (validated chains h) req (start s)).
Proof.
  intros Hh. rewrite validated_dispatch.
  destruct (violations chains req) as [|e errors]; [by right|].
  left. unfold rejection_answer. cbn. eauto.
Qed.

(** X9.  Whatever the storage does, a request that the router routes is
    answered, in one of four ways: 400 with a non-empty [errors] array and
    the storage not called; 404 with "Producto no encontrado"; 500 with
    "Database error" and the error logged; or the data, with 201 on a
    create and 200 otherwise.  A request that no route takes leaves the
    router as it came. *)
Theorem every_routed_request_is_answered
    (m : Method) (path : list string) (payload : Value) (s : S) :
  let w := serve m path payload (start s) in
  match find_route router m path with
  | Some _ => rejection_answer s w ∨ handler_answer m w
  | None => w = with_res {| statusCode := 404; sent := None |} (start s)
  end.
Proof.
  intros w. subst w.
  destruct path as [|id [|? ?]]; [| |by destruct m].
  - destruct m; try done.
    + right. rewrite serve_list, handle_ends. apply getProducts_answers.
    + rewrite serve_create. apply validated_answers, createProduct_answers.
  - destruct (decide (id = "")) as [->|Hne]; [by destruct m|].
    assert (Hfind : ∀ m, m ≠ POST → is_Some (find_route router m [id])).
    { intros m' Hm'. destruct m'; try done;
        cbn [find_route router method pattern method_eqb];
        by rewrite (bind_params_id id Hne). }
    destruct m.
    + destruct (Hfind GET) as [r ->]; [done|].
      rewrite serve_get by done. apply validated_answers, getProductsById_answers.
    + cbn [find_route router method pattern method_eqb bind_params].
      unfold serve. cbn [find_route router method pattern method_eqb bind_params].
      done.
    + destruct (Hfind PUT) as [r ->]; [done|].
      rewrite serve_update by done. apply validated_answers, updateProduct_answers.
    + destruct (Hfind PATCH) as [r ->]; [done|].
      rewrite serve_toggle by done. apply validated_answers, updateAvailability_answers.
    + destruct (Hfind DELETE) as [r ->]; [done|].
      rewrite serve_delete by done. apply validated_answers, deleteProduct_answers.
Qed.

End answers.

(** ** Failures of the awaited calls *)
Section awaited_failures.
Context {S : Type} {Product : Model S}.

(** X10.  On get by id, toggle and delete with a numeral for [id]: when
    the lookup is rejected, the answer is 500 with "Database error", the
    error is logged, and no other call is made on the storage, which is
    left as the lookup left it. *)
Theorem lookup_failure_is_500 (m : Method) (id : string) (payload : Value)
    (s s' : S) (e : Error) :
  m ∈ [GET; PATCH; DELETE] →
  validator.isInt id = true →
  findByPk (JStr id) s = (Rejected e, s') →
  serve m [id] payload (start s) = database_error e s' (start s).
Proof.
  intros Hm Hid Hfind. pose proof (isInt_nonempty id Hid) as Hne.
  rewrite !elem_of_cons, elem_of_nil in Hm.
  destruct Hm as [-> | [-> | [-> | []]]].
  - rewrite serve_get, validated_id_passes by done. unfold handle.
    by rewrite (getProductsById_rejected _ _ e s').
  - rewrite serve_toggle, validated_id_passes by done. unfold handle.
    by rewrite (updateAvailability_rejected_find _ _ e s').
  - rewrite serve_delete, validated_id_passes by done. unfold handle.
    by rewrite (deleteProduct_rejected_find _ _ e s').
Qed.

(** X11.  On toggle and delete with a numeral for [id], after a lookup that
    found the product: when the write ([save] of the flipped product, or
    [destroy]) is rejected, the answer is 500 with "Database error", the
    error is logged, and the storage is left as the failed call left it. *)
Theorem write_failure_is_500 (m : Method) (id : string) (payload : Value)
    (product : Instance) (s s1 s2 : S) (e : Error) :
  validator.isInt id = true →
  findByPk (JStr id) s = (Resolved (Some product), s1) →
  (m = PATCH
   ∧ ∃ saved,
       save (setDataValue "availability"
               (logical_not (getDataValue "availability" product)) product) s1
       = (Rejected e, saved, s2))
  ∨ (m = DELETE ∧ destroy product s1 = (Rejected e, s2)) →
  serve m [id] payload (start s) = database_error e s2 (start s).
Proof.
  intros Hid Hfind Hwrite. pose proof (isInt_nonempty id Hid) as Hne.
  destruct Hwrite as [(-> & saved & Hsave) | (-> & Hdestroy)].
  - rewrite serve_toggle, validated_id_passes by done. unfold handle.
    by rewrite (updateAvailability_rejected_save _ _ product saved e s1 s2).
  - rewrite serve_delete, validated_id_passes by done. unfold handle.
    by rewrite (deleteProduct_rejected_destroy _ _ product e s1 s2).
Qed.

End awaited_failures.

Section awaited_failures_witnesses.
Import Faulty.

Lemma lookup_failure_is_500_witness :
  let storage := {| failing := [call_findByPk]; table := Sample.catalogue |} in
  let after := {| failing := []; table := Sample.catalogue |} in
  PATCH ∈ [GET; PATCH; DELETE]
  ∧ validator.isInt "1" = true
  ∧ findByPk (JStr "1") storage = (Rejected "Database error", after)
  ∧ serve PATCH ["1"] JUndefined (start storage)
    = database_error "Database error" after (start storage).
Proof.
  intros storage after.
  assert (Hm : PATCH ∈ [GET; PATCH; DELETE]) by (right; left).
  assert (Hid : validator.isInt "1" = true) by reflexivity.
  assert (Hfind : findByPk (JStr "1") storage = (Rejected "Database error", after))
    by reflexivity.
  exact (conj Hm (conj Hid (conj Hfind
           (lookup_failure_is_500 PATCH "1" JUndefined storage after
              "Database error" Hm Hid Hfind)))).
Defined.

Lemma write_failure_is_500_witness :
  let storage := {| failing := [call_destroy]; table := Sample.catalogue |} in
  let after := {| failing := []; table := Sample.catalogue |} in
  let product := build (3, Sample.row "Teclado" 30 false 7) in
  validator.isInt "3" = true
  ∧ findByPk (JStr "3") storage = (Resolved (Some product), storage)
  ∧ destroy product storage = (Rejected "Database error", after)
  ∧ serve DELETE ["3"] JUndefined (start storage)
    = database_error "Database error" after (start storage).
Proof.
  intros storage after product.
  assert (Hid : validator.isInt "3" = true) by reflexivity.
  assert (Hfind : findByPk (JStr "3") storage = (Resolved (Some product), storage))
    by (vm_compute; reflexivity).
  assert (Hdestroy : destroy product storage = (Rejected "Database error", after))
    by reflexivity.
  exact (conj Hid (conj Hfind (conj Hdestroy
           (write_failure_is_500 DELETE "3" JUndefined product storage storage after
              "Database error" Hid Hfind (or_intror (conj eq_refl Hdestroy)))))).
Defined.

End awaited_failures_witnesses.

(** ** Which create requests pass *)
Section create_rules.
Import ExpressValidator.






(** X13.  The decimal numeral of any integer passes the rule on [id]: a get
    by id, a toggle or a delete of the printed [id] of a product is never
    answered 400 and always reaches its handler. *)
Theorem printed_id_reaches_handler {S : Type} {Product : Model S}
    (m : Method) (k : Z) (payload : Value) (s : S) :
  m ∈ [GET; PATCH; DELETE] →
  let w := serve m [pretty k] payload (start s) in
  validator.isInt (pretty k) = true
  ∧ statusCode (res w) ≠ 400
  ∧ handler_answer m w.
Proof.
  intros Hm w. subst w.
  destruct (pretty_Z_numeral k) as (Hint & _ & _ & _).
  pose proof (isInt_nonempty _ Hint) as Hne.
  split; [done|].
  assert (Hanswer : handler_answer m (serve m [pretty k] payload (start s))).
  { rewrite !elem_of_cons, elem_of_nil in Hm.
    destruct Hm as [-> | [-> | [-> | []]]].
    - rewrite serve_get, validated_id_passes by done. apply getProductsById_answers.
    - rewrite serve_toggle, validated_id_passes by done.
      apply updateAvailability_answers.
    - rewrite serve_delete, validated_id_passes by done. apply deleteProduct_answers.  }
  split; [|done].
  destruct Hanswer as [[-> _] | [[-> _] | [-> _]]]; [done..|].
  by destruct (method_eqb m POST).
Qed.

Lemma printed_id_reaches_handler_witness :
  GET ∈ [GET; PATCH; DELETE]
  ∧ statusCode (res (serve GET [pretty (-7)] JUndefined (start Sample.catalogue))) ≠ 400.
Proof.
  assert (Hm : GET ∈ [GET; PATCH; DELETE]) by left.
  pose proof (printed_id_reaches_handler GET (-7) JUndefined Sample.catalogue Hm) as H.
  cbv zeta in H. destruct H as (_ & Hstatus & _).
  exact (conj Hm Hstatus).
Defined.

End create_rules.

(** ** [src/server.ts] *)
Section server_start.
Context {S : Type} {db_connection : Connection S}.

(** X14.  [connectDB] never rejects and never answers anything.  When
    [authenticate] is rejected, [sync] is not called, the fixed message is
    logged in place of the error, and nothing is left unhandled.  When
    [authenticate] resolves, [sync] is called once; nothing is logged, and
    a rejection of [sync] is left unhandled. *)
Theorem connectDB_outcomes (red_bold : string -> string) (w : World S) :
  ∃ w',
    connectDB red_bold w = (Resolved (), w')
    ∧ res w' = res w
    ∧ match authenticate (db w) with
      | (Rejected e, s) =>
          db w' = s
          ∧ console w' = console w ++ [red_bold "Hubo un error al conectarse a la BBDD"]
          ∧ unhandled w' = unhandled w
      | (Resolved _, s) =>
          db w' = (sync s).2
          ∧ console w' = console w
          ∧ unhandled w'
            = unhandled w ++ match (sync s).1 with Rejected e => [e] | Resolved _ => [] end
      end.
Proof.
  unfold connectDB, try_catch, bind, await, unawaited.
  destruct (authenticate (db w)) as [[[]|e] s]; cbn [db with_db].
  - destruct (sync s) as [[[]|e] s']; eexists; (split; [reflexivity|]); cbn;
      by rewrite ?app_nil_r.
  - eexists. split; [reflexivity|]. done.
Qed.

End server_start.

Section server_cors.
Context {S : Type} {Product : Model S}.

(** X15.  The CORS check of the server lets a request through exactly when
    its [Origin] header is [FRONTEND_URL]: then the request is served as
    the router serves it.  Any other request is answered 500 without a
    JSON document before any rule or handler runs: the storage is not
    called and nothing is logged.  So a request without an [Origin] header
    is refused whenever [FRONTEND_URL] is set, and served when it is not. *)
Theorem cors_lets_only_the_frontend_through
    (FRONTEND_URL origin : option string) (url : string)
    (m : Method) (path : list string) (payload : Value) (w : World S) :
  let w' := server FRONTEND_URL origin m path payload w in
  (if decide (origin = FRONTEND_URL)
   then w' = serve m path payload w
   else statusCode (res w') = 500 ∧ sent (res w') = None
        ∧ db w' = db w ∧ contexts w' = contexts w
        ∧ console w' = console w ∧ unhandled w' = unhandled w)
  ∧ statusCode (res (server (Some url) None m path payload w)) = 500
  ∧ server None None m path payload w = serve m path payload w.
Proof.
  intros w'. subst w'. split; [|done].
  unfold server, cors, corsOptions_origin.
  by destruct (decide (origin = FRONTEND_URL)).
Qed.

End server_cors.
